(** * Raspberry Pi photo booth: a shallow embedding of [camera.py]

    The program is a single-threaded loop around hardware collaborators
    (camera, GPIO pins, audio mixer, file system).  It is embedded as
    functions in a small monad that threads the program-visible state,
    raises exceptions and records every call made on a collaborator as an
    event of a trace.  What the collaborators answer (pin levels, event
    flags, the clock, image sizes, whether a copy succeeds) is input.

    Durations are rationals (seconds).  Of the ways a collaborator can
    fail only the failure of [copy2] is modelled, as the exception that
    [copy2] raises; the other calls are taken to succeed.  The [while True]
    loop is run over a finite list of polls, one per iteration, and reports
    whether it returned, broke out or is still polling when they are used
    up. *)

From Stdlib Require Import ZArith QArith String Ascii List Bool Lia DecimalString.
Import ListNotations.
Open Scope string_scope.
Open Scope list_scope.
Open Scope Z_scope.

Local Infix "+++" := String.append (at level 60, right associativity).
#[local] Arguments String.append : simpl never.

(** ** Configuration (the module-level constants read from camera-config.yaml) *)

Record Config := {
  REAL_PATH : string;
  CAMERA_BUTTON_PIN : Z;
  EXIT_BUTTON_PIN : Z;
  TOTAL_PICS : Z;
  PREP_DELAY : Q;
  COUNTDOWN : Z;
  PHOTO_W : Z;
  PHOTO_H : Z;
  SCREEN_W : Z;
  SCREEN_H : Z;
  CAMERA_ROTATION : Z;
  CAMERA_HFLIP : bool;
  DEBOUNCE_TIME : Q;
  TESTMODE_AUTOPRESS_BUTTON : bool;
  SAVE_RAW_IMAGES_FOLDER : string;
  COPY_IMAGES_TO : list string
}.

Definition version : string := "2.2".

Definition SOUND_COUNTDOWN_0 : string :=
  "./assets/sounds/vous-allez-me-montrer-ce-que-vous-avez-un-peu-dans-le-froc.mp3".
Definition SOUND_COUNTDOWN_1 : string := "./assets/sounds/deshabillezvous.mp3".
Definition SOUND_COUNTDOWN_2 : string := "./assets/sounds/allez-y-mollo-avec-la-joie.mp3".
Definition SOUND_COUNTDOWN_3 : string :=
  "./assets/sounds/mais-allez-y-magnez-vous-le-fion-espece-de-grosse-dinde.mp3".

Definition SOUND_CAMERA : string := "./assets/sounds/camera.mp3".

Definition SOUND_DONE_0 : string := "./assets/sounds/allez_boire_un_coup.mp3".
Definition SOUND_DONE_1 : string :=
  "./assets/sounds/considerer_que_je_suis_officiellement_cul_nu.mp3".
Definition SOUND_DONE_2 : string :=
  "./assets/sounds/deux_trous_du_cul_soient_plus_efficaces_qu_un_seul.mp3".
Definition SOUND_DONE_3 : string := "./assets/sounds/lair_idiote.mp3".
Definition SOUND_DONE_4 : string := "./assets/sounds/pour_savoir_si_il_va_y_avoir_du_vent.mp3".
Definition SOUND_DONE_5 : string := "./assets/sounds/sourire_comme_des_glands.mp3".
Definition SOUND_DONE_6 : string := "./assets/sounds/vous-vous-devriez-arreter-de-sourire.mp3".

(** ** Images

    A PIL image is represented by where its pixels come from and its size;
    a padded canvas by its mode, its size and what was pasted where. *)

Record image := { source : string; size : Z * Z }.

Record canvas := {
  mode : string;
  canvas_size : Z * Z;
  pasted : list (image * (Z * Z))
}.

Definition Image_resize (img : image) (sz : Z * Z) : image :=
  {| source := source img; size := sz |}.

Definition Image_new (m : string) (sz : Z * Z) : canvas :=
  {| mode := m; canvas_size := sz; pasted := [] |}.

Definition paste (pad : canvas) (img : image) (at_ : Z * Z) : canvas :=
  {| mode := mode pad; canvas_size := canvas_size pad;
     pasted := pasted pad ++ [(img, at_)] |}.

(** ** The world outside the program *)

(** What does not change during a run: the size of the image stored at a
    path, and the height [int(float(h) * (basewidth / float(w)))] that the
    resize step computes in floating point (left abstract). *)
Record World := {
  image_size : string -> Z * Z;
  resize_height : Z -> Z -> Z -> Z
}.

(** What one iteration of the main loop reads: the two event flags, the
    two pin levels as they read after the debounce sleep, the clock
    ([str(datetime.datetime.now())]) and whether [copy2 src dest] succeeds. *)
Record poll := {
  cam_event : bool;
  cam_input : Z;
  exit_event : bool;
  exit_input : Z;
  now : string;
  copy_ok : string -> string -> bool
}.

(** ** Events, state, exceptions and the monad *)

Inductive event :=
| Print (s : string)
| Sleep (d : Q)
| MusicLoad (file : string)
| MusicPlay
| Makedirs (folder : string)
| StartPreview (resolution : Z * Z)
| AddEventDetect (pin : Z)
| RemoveEventDetect (pin : Z)
| EventDetected (pin : Z) (answer : bool)
| GpioInput (pin : Z) (level : Z)
| AddOverlay (id : nat) (data : canvas) (sz : Z * Z)
| SetLayer (id : nat) (layer : Z)
| RemoveOverlay (id : nat)
| AnnotateText (s : string)
| Capture (filename : string)
| Copy2 (src dst : string) (ok : bool).

(** The overlay renderers are numbered in the order the camera creates
    them; [folders] are the paths that exist. *)
Record state := { next_overlay : nat; folders : list string }.

Inductive exn := CopyError (src dst : string).

Inductive result (A : Type) :=
| Ok (a : A)
| Raised (e : exn).
Arguments Ok {A} a.
Arguments Raised {A} e.

Record outcome (A : Type) := Out {
  trace : list event;
  final : state;
  value : result A
}.
Arguments Out {A} trace final value.
Arguments trace {A} o.
Arguments final {A} o.
Arguments value {A} o.

Definition M (A : Type) : Type := state -> outcome A.

Definition ret {A} (a : A) : M A := fun s => Out [] s (Ok a).

Definition prepend {A} (t : list event) (o : outcome A) : outcome A :=
  Out (t ++ trace o) (final o) (value o).

Definition bind {A B} (m : M A) (f : A -> M B) : M B := fun s =>
  match m s with
  | Out t s1 (Ok a) => prepend t (f a s1)
  | Out t s1 (Raised e) => Out t s1 (Raised e)
  end.

Declare Scope monad_scope.
Delimit Scope monad_scope with monad.
Notation "x <- m ;; k" := (bind m (fun x => k))
  (at level 61, m at next level, right associativity) : monad_scope.
Notation "m ;; k" := (bind m (fun _ => k))
  (at level 61, right associativity) : monad_scope.
Open Scope monad_scope.

Definition emit (e : event) : M unit := fun s => Out [e] s (Ok tt).

Definition raise {A} (e : exn) : M A := fun s => Out [] s (Raised e).

Fixpoint for_each {A} (l : list A) (body : A -> M unit) : M unit :=
  match l with
  | [] => ret tt
  | x :: rest => body x ;; for_each rest body
  end.

(** ** Collaborator calls *)

Definition print (s : string) : M unit := emit (Print s).
Definition sleep (d : Q) : M unit := emit (Sleep d).

Definition copy2 (p : poll) (src dst : string) : M unit :=
  if copy_ok p src dst
  then emit (Copy2 src dst true)
  else (emit (Copy2 src dst false) ;; raise (CopyError src dst)).

Definition os_path_exists (folder : string) : M bool := fun s =>
  Out [] s (Ok (existsb (String.eqb folder) (folders s))).

Definition os_makedirs (folder : string) : M unit := fun s =>
  Out [Makedirs folder]
      {| next_overlay := next_overlay s; folders := folder :: folders s |}
      (Ok tt).

Definition CAMERA_add_overlay (data : canvas) (sz : Z * Z) : M nat := fun s =>
  Out [AddOverlay (next_overlay s) data sz]
      {| next_overlay := S (next_overlay s); folders := folders s |}
      (Ok (next_overlay s)).

Definition CAMERA_remove_overlay (o_id : nat) : M unit := emit (RemoveOverlay o_id).

Definition GPIO_event_detected (pin : Z) (answer : bool) : M bool :=
  emit (EventDetected pin answer) ;; ret answer.

Definition GPIO_input (pin : Z) (level : Z) : M Z :=
  emit (GpioInput pin level) ;; ret level.

(** ** Small Python idioms *)

(** [str(n)] on an integer. *)
Definition str (n : Z) : string := NilZero.string_of_int (Z.to_int n).

(** [range(n, 0, -1)]. *)
Definition range_down (n : Z) : list Z :=
  map (fun i => n - Z.of_nat i) (seq 0 (Z.to_nat n)).

(** [s.split(c)[0]]. *)
Fixpoint split_head (c : ascii) (s : string) : string :=
  match s with
  | EmptyString => EmptyString
  | String a rest => if Ascii.eqb a c then EmptyString else String a (split_head c rest)
  end.

(** [s.replace(a, b)] for single characters. *)
Fixpoint replace (a b : ascii) (s : string) : string :=
  match s with
  | EmptyString => EmptyString
  | String x rest => String (if Ascii.eqb x a then b else x) (replace a b rest)
  end.

(** [duration > 0]. *)
Definition Qgtb (x y : Q) : bool := negb (Qle_bool x y).

(** An overlay id as the program holds it: a renderer, or the int [-1]. *)
Inductive handle :=
| Renderer (id : nat)
| NoOverlay.

Definition is_none {A} (o : option A) : bool :=
  match o with None => true | Some _ => false end.

(** ** The program *)

Section Program.

Variable cfg : Config.
Variable world : World.

Definition Image_open (image_path : string) : image :=
  {| source := image_path; size := image_size world image_path |}.

Definition play_sound (file : string) : M unit :=
  emit (MusicLoad file) ;;
  emit MusicPlay.

(** The loop of [health_test_required_folders], with [folders_checked]
    as its accumulator. *)
Fixpoint check_folders (folders_list folders_checked : list string) : M unit :=
  match folders_list with
  | [] => ret tt
  | folder :: rest =>
      folders_checked' <-
        (if negb (existsb (String.eqb folder) folders_checked)
         then ret (folders_checked ++ [folder])
         else (print ("ERROR: Cannot use same folder path (" +++ folder
                      +++ ") twice. Refer config file.") ;;
               ret folders_checked)) ;;
      there <- os_path_exists folder ;;
      (if negb there
       then (print ("Creating folder: " +++ folder) ;; os_makedirs folder)
       else ret tt) ;;
      check_folders rest folders_checked'
  end.

Definition health_test_required_folders : M unit :=
  let folders_list := [SAVE_RAW_IMAGES_FOLDER cfg] ++ COPY_IMAGES_TO cfg in
  check_folders folders_list [].

Definition get_base_filename_for_images (p : poll) : string :=
  let base_filename := split_head "."%char (now p) in
  let base_filename := replace " "%char "_"%char base_filename in
  let base_filename := replace ":"%char "-"%char base_filename in
  REAL_PATH cfg +++ "/" +++ SAVE_RAW_IMAGES_FOLDER cfg +++ "/" +++ base_filename +++ ".jpg".

Definition remove_overlay (overlay_id : handle) : M unit :=
  match overlay_id with
  | Renderer o_id => CAMERA_remove_overlay o_id
  | NoOverlay => ret tt
  end.

(** The image as [overlay_image] has it after the optional resize. *)
Definition loaded_image (image_path : string) : image :=
  let img := Image_open image_path in
  if fst (size img) >? SCREEN_W cfg then
    let basewidth := SCREEN_W cfg in
    let hsize := resize_height world basewidth (fst (size img)) (snd (size img)) in
    Image_resize img (basewidth, hsize)
  else img.

(** The canvas [pad] of [overlay_image], built from the image. *)
Definition padded (m : string) (img : image) : canvas :=
  let pad := Image_new m (((fst (size img) + 31) / 32) * 32,
                          ((snd (size img) + 15) / 16) * 16) in
  paste pad img (0, 0).

Definition overlay_image (image_path : string) (duration : Q) (layer : Z)
    (m : string) : M handle :=
  let img := loaded_image image_path in
  let pad := padded m img in
  o_id <- CAMERA_add_overlay pad (size img) ;;
  emit (SetLayer o_id layer) ;;
  if Qgtb duration 0 then
    sleep duration ;;
    CAMERA_remove_overlay o_id ;;
    ret NoOverlay
  else
    ret (Renderer o_id).

Definition prep_for_photo_screen (photo_number : Z) : M unit :=
  let get_ready_image := REAL_PATH cfg +++ "/assets/souriez.png" in
  _ <- overlay_image get_ready_image (PREP_DELAY cfg) 4 "RGBA" ;;
  ret tt.

Definition taking_photo (photo_number : Z) (filename : string) : M string :=
  for_each (range_down (COUNTDOWN cfg)) (fun counter =>
    let get_ready_image := REAL_PATH cfg +++ "/assets/wait-" +++ str counter +++ ".png" in
    _ <- overlay_image get_ready_image 1 3 "RGBA" ;;
    ret tt) ;;
  play_sound SOUND_CAMERA ;;
  emit (AnnotateText "") ;;
  emit (Capture filename) ;;
  print ("Photo (" +++ str photo_number +++ ") saved: " +++ filename) ;;
  ret filename.

(** [playback_screen] is defined in the source and called nowhere. *)
Definition playback_screen (filename : string) : M unit :=
  _ <- overlay_image filename 2 3 "RGB" ;;
  print "All done!" ;;
  let finished_image := REAL_PATH cfg +++ "/assets/all_done.png" in
  _ <- overlay_image finished_image 3 3 "RGB" ;;
  ret tt.

Definition done_sound (photo_number : Z) : M unit :=
  if photo_number mod 7 =? 0 then play_sound SOUND_DONE_0
  else if photo_number mod 7 =? 1 then play_sound SOUND_DONE_1
  else if photo_number mod 7 =? 2 then play_sound SOUND_DONE_2
  else if photo_number mod 7 =? 3 then play_sound SOUND_DONE_3
  else if photo_number mod 7 =? 4 then play_sound SOUND_DONE_4
  else if photo_number mod 7 =? 5 then play_sound SOUND_DONE_5
  else if photo_number mod 7 =? 6 then play_sound SOUND_DONE_6
  else ret tt.

(** *** [main] *)

(** The variables of [main] that live across iterations. *)
Record locals := { taken_photo : Z; overlay : handle }.

(** How an iteration ends: [continue] (or the end of the body), [return]
    or [break], each with the locals at that point. *)
Inductive control :=
| Continue (l : locals)
| Return (l : locals)
| Break (l : locals).

Definition intro_image : string := REAL_PATH cfg +++ "/assets/Bienvenue.png".

(** The button checks that open each iteration: the values of
    [photo_button_is_pressed] and [exit_button_is_pressed] after them. *)
Definition poll_buttons (p : poll) : M (option bool * option bool) :=
  let photo_button_is_pressed : option bool := None in
  let exit_button_is_pressed : option bool := None in
  detected <- GPIO_event_detected (CAMERA_BUTTON_PIN cfg) (cam_event p) ;;
  photo_button_is_pressed <-
    (if detected : bool then
       sleep (DEBOUNCE_TIME cfg) ;;
       level <- GPIO_input (CAMERA_BUTTON_PIN cfg) (cam_input p) ;;
       ret (if level =? 0 then Some true else photo_button_is_pressed)
     else ret photo_button_is_pressed) ;;
  detected <- GPIO_event_detected (EXIT_BUTTON_PIN cfg) (exit_event p) ;;
  exit_button_is_pressed <-
    (if detected : bool then
       sleep (DEBOUNCE_TIME cfg) ;;
       level <- GPIO_input (EXIT_BUTTON_PIN cfg) (exit_input p) ;;
       ret (if level =? 0 then Some true else exit_button_is_pressed)
     else ret exit_button_is_pressed) ;;
  ret (photo_button_is_pressed, exit_button_is_pressed).

(** The block played before the capture, chosen by [taken_photo % 10]. *)
Definition countdown_sound (taken : Z) : M unit :=
  if taken mod 10 =? 0 then play_sound SOUND_COUNTDOWN_0
  else if taken mod 10 =? 1 then play_sound SOUND_COUNTDOWN_1
  else if taken mod 10 =? 2 then play_sound SOUND_COUNTDOWN_2
  else if taken mod 10 =? 3 then play_sound SOUND_COUNTDOWN_3
  else ret tt.

(** The two nested [for] loops that copy the photos. *)
Definition distribute (p : poll) (dests photo_filenames : list string) : M unit :=
  for_each dests (fun dest =>
    for_each photo_filenames (fun src =>
      print (src +++ " -> " +++ dest) ;;
      copy2 p src dest)).

(** An iteration from "Button has been pressed!" to its end. *)
Definition session (l : locals) (p : poll) : M control :=
  print "Button pressed! You folks are in for a treat." ;;
  emit (RemoveEventDetect (CAMERA_BUTTON_PIN cfg)) ;;
  emit (RemoveEventDetect (EXIT_BUTTON_PIN cfg)) ;;
  let filename := get_base_filename_for_images p in
  let photo_filenames : list string := [] in
  prep_for_photo_screen 1 ;;
  remove_overlay (overlay l) ;;
  countdown_sound (taken_photo l) ;;
  fname <- taking_photo 1 filename ;;
  let photo_filenames := photo_filenames ++ [fname] in
  _ <- overlay_image filename 2 3 "RGB" ;;
  done_sound (taken_photo l) ;;
  let finished_image := REAL_PATH cfg +++ "/assets/all_done.png" in
  finished_overlay <- overlay_image finished_image 0 4 "RGB" ;;
  overlay' <- overlay_image intro_image 0 3 "RGB" ;;
  sleep 2 ;;
  remove_overlay finished_overlay ;;
  distribute p (COPY_IMAGES_TO cfg) photo_filenames ;;
  if TESTMODE_AUTOPRESS_BUTTON cfg then
    ret (Break {| taken_photo := taken_photo l; overlay := overlay' |})
  else
    let taken_photo' := taken_photo l + 1 in
    emit (AddEventDetect (CAMERA_BUTTON_PIN cfg)) ;;
    emit (AddEventDetect (EXIT_BUTTON_PIN cfg)) ;;
    print "Press the button to take a photo" ;;
    ret (Continue {| taken_photo := taken_photo'; overlay := overlay' |}).

(** One iteration of [while True]. *)
Definition loop_body (l : locals) (p : poll) : M control :=
  pressed <- poll_buttons p ;;
  let photo_button_is_pressed := fst pressed in
  let exit_button_is_pressed := snd pressed in
  if negb (is_none exit_button_is_pressed) then
    ret (Return l)
  else
    let photo_button_is_pressed :=
      if TESTMODE_AUTOPRESS_BUTTON cfg then Some true else photo_button_is_pressed in
    if is_none photo_button_is_pressed then
      sleep 0.1 ;;
      ret (Continue l)
    else
      session l p.

(** How a run of the loop over the given polls stands at its end: it
    returned, it broke out, or it is still polling. *)
Inductive loop_end :=
| Returned (l : locals)
| Broke (l : locals)
| Polling (l : locals).

Fixpoint main_loop (polls : list poll) (l : locals) : M loop_end :=
  match polls with
  | [] => ret (Polling l)
  | p :: rest =>
      c <- loop_body l p ;;
      match c with
      | Continue l' => main_loop rest l'
      | Return l' => ret (Returned l')
      | Break l' => ret (Broke l')
      end
  end.

Definition main (polls : list poll) : M loop_end :=
  print "Welcome to the photo booth!" ;;
  print ("(version " +++ version +++ ")") ;;
  print "" ;;
  print "Press the 'Take photo' button to take a photo" ;;
  print "Use [Ctrl] + [\] to exit" ;;
  print "" ;;
  let taken_photo0 := 3 in
  health_test_required_folders ;;
  emit (StartPreview (SCREEN_W cfg, SCREEN_H cfg)) ;;
  overlay0 <- overlay_image intro_image 0 3 "RGB" ;;
  emit (AddEventDetect (CAMERA_BUTTON_PIN cfg)) ;;
  emit (AddEventDetect (EXIT_BUTTON_PIN cfg)) ;;
  main_loop polls {| taken_photo := taken_photo0; overlay := overlay0 |}.

End Program.

(** ** Observations on traces and expected traces *)

(** The photo-capture calls of a trace, in order. *)
Definition captures (tr : list event) : list string :=
  flat_map (fun e => match e with Capture f => [f] | _ => [] end) tr.

(** The (source, destination) pairs whose copy was attempted, in order. *)
Definition copies (tr : list event) : list (string * string) :=
  flat_map (fun e => match e with Copy2 src dst _ => [(src, dst)] | _ => [] end) tr.

(** The clips loaded into the mixer, in order. *)
Definition sounds (tr : list event) : list string :=
  flat_map (fun e => match e with MusicLoad f => [f] | _ => [] end) tr.

(** The overlays on display after a trace, given those on display before it. *)
Fixpoint live_after (shown : list nat) (tr : list event) : list nat :=
  match tr with
  | [] => shown
  | AddOverlay id _ _ :: rest => live_after (shown ++ [id]) rest
  | RemoveOverlay id :: rest =>
      live_after (filter (fun j => negb (Nat.eqb j id)) shown) rest
  | _ :: rest => live_after shown rest
  end.

Definition displayed (tr : list event) : list nat := live_after [] tr.

(** The time slept from a point of the trace until overlay [id] is
    removed; [None] when it is not removed. *)
Fixpoint sleep_until_removed (id : nat) (tr : list event) : option Q :=
  match tr with
  | [] => None
  | RemoveOverlay j :: rest =>
      if Nat.eqb j id then Some 0%Q else sleep_until_removed id rest
  | Sleep d :: rest => option_map (Qplus d) (sleep_until_removed id rest)
  | _ :: rest => sleep_until_removed id rest
  end.

(** For how long the first overlay made from the image at [path] is displayed. *)
Fixpoint display_time (path : string) (tr : list event) : option Q :=
  match tr with
  | [] => None
  | AddOverlay id data _ :: rest =>
      if existsb (fun q => String.eqb (source (fst q)) path) (pasted data)
      then sleep_until_removed id rest
      else display_time path rest
  | _ :: rest => display_time path rest
  end.

(** The state after [k] more overlays were created. *)
Definition bump (k : nat) (s : state) : state :=
  {| next_overlay := k + next_overlay s; folders := folders s |}.

(** What [overlay_image] does when the camera numbers the overlay [n]. *)
Definition overlay_events (cfg : Config) (world : World) (n : nat)
    (image_path : string) (duration : Q) (layer : Z) (m : string) : list event :=
  let img := loaded_image cfg world image_path in
  [AddOverlay n (padded m img) (size img); SetLayer n layer]
  ++ (if Qgtb duration 0 then [Sleep duration; RemoveOverlay n] else []).

Definition wait_image (cfg : Config) (counter : Z) : string :=
  REAL_PATH cfg +++ "/assets/wait-" +++ str counter +++ ".png".

Fixpoint countdown_events (cfg : Config) (world : World) (n : nat)
    (counters : list Z) : list event :=
  match counters with
  | [] => []
  | counter :: rest =>
      overlay_events cfg world n (wait_image cfg counter) 1 3 "RGBA"
      ++ countdown_events cfg world (S n) rest
  end.

Definition remove_events (h : handle) : list event :=
  match h with
  | Renderer id => [RemoveOverlay id]
  | NoOverlay => []
  end.

(** The two clip tables, and the events of playing an optional clip. *)
Definition countdown_clips : list string :=
  [SOUND_COUNTDOWN_0; SOUND_COUNTDOWN_1; SOUND_COUNTDOWN_2; SOUND_COUNTDOWN_3].

Definition done_clips : list string :=
  [SOUND_DONE_0; SOUND_DONE_1; SOUND_DONE_2; SOUND_DONE_3;
   SOUND_DONE_4; SOUND_DONE_5; SOUND_DONE_6].

Definition cue_events (clip : option string) : list event :=
  match clip with
  | Some file => [MusicLoad file; MusicPlay]
  | None => []
  end.

Definition countdown_cue (counter : Z) : option string :=
  nth_error countdown_clips (Z.to_nat (counter mod 10)).

Definition done_cue (counter : Z) : option string :=
  nth_error done_clips (Z.to_nat (counter mod 7)).

(** A press is confirmed when an edge was detected and the pin reads 0
    after the debounce sleep. *)
Definition confirmed (edge : bool) (level : Z) : option bool :=
  if edge && (level =? 0) then Some true else None.

Definition check_events (d : Q) (pin : Z) (edge : bool) (level : Z) : list event :=
  EventDetected pin edge :: (if edge then [Sleep d; GpioInput pin level] else []).

Definition poll_events (cfg : Config) (p : poll) : list event :=
  check_events (DEBOUNCE_TIME cfg) (CAMERA_BUTTON_PIN cfg) (cam_event p) (cam_input p)
  ++ check_events (DEBOUNCE_TIME cfg) (EXIT_BUTTON_PIN cfg) (exit_event p) (exit_input p).

(** The (source, destination) pairs in the order the nested loops visit them. *)
Definition pairs (dests srcs : list string) : list (string * string) :=
  flat_map (fun dest => map (fun src => (src, dest)) srcs) dests.

(** The pairs up to and including the first one whose copy fails. *)
Fixpoint attempts (p : poll) (l : list (string * string)) : list (string * string) :=
  match l with
  | [] => []
  | (src, dst) :: rest =>
      (src, dst) :: (if copy_ok p src dst then attempts p rest else [])
  end.

Definition first_failure (p : poll) (l : list (string * string)) : option (string * string) :=
  find (fun q => negb (copy_ok p (fst q) (snd q))) l.

Definition distribute_value (p : poll) (l : list (string * string)) : result unit :=
  match first_failure p l with
  | None => Ok tt
  | Some (src, dst) => Raised (CopyError src dst)
  end.

Definition locals_of (e : loop_end) : locals :=
  match e with Returned l | Broke l | Polling l => l end.

Definition finished_image (cfg : Config) : string :=
  REAL_PATH cfg +++ "/assets/all_done.png".

(** The events of a session before the photo is played back, when the
    camera numbers the next overlay [n]. *)
Definition session_head (cfg : Config) (world : World) (l : locals) (p : poll)
    (n : nat) : list event :=
  [Print "Button pressed! You folks are in for a treat.";
   RemoveEventDetect (CAMERA_BUTTON_PIN cfg);
   RemoveEventDetect (EXIT_BUTTON_PIN cfg)]
  ++ overlay_events cfg world n (REAL_PATH cfg +++ "/assets/souriez.png")
       (PREP_DELAY cfg) 4 "RGBA"
  ++ remove_events (overlay l)
  ++ cue_events (countdown_cue (taken_photo l))
  ++ countdown_events cfg world (S n) (range_down (COUNTDOWN cfg))
  ++ [MusicLoad SOUND_CAMERA; MusicPlay; AnnotateText "";
      Capture (get_base_filename_for_images cfg p);
      Print ("Photo (" +++ str 1 +++ ") saved: " +++ get_base_filename_for_images cfg p)].

(** The playback of the photo as overlay [k]. *)
Definition playback_events (cfg : Config) (world : World) (p : poll) (k : nat) : list event :=
  let photo := loaded_image cfg world (get_base_filename_for_images cfg p) in
  [AddOverlay k (padded "RGB" photo) (size photo); SetLayer k 3;
   Sleep 2; RemoveOverlay k].

(** The finished screen as overlay [k] with the intro screen as overlay
    [S k] beneath it. *)
Definition done_events (cfg : Config) (world : World) (k : nat) : list event :=
  let fin := loaded_image cfg world (finished_image cfg) in
  let intro := loaded_image cfg world (intro_image cfg) in
  [AddOverlay k (padded "RGB" fin) (size fin); SetLayer k 4;
   AddOverlay (S k) (padded "RGB" intro) (size intro); SetLayer (S k) 3;
   Sleep 2; RemoveOverlay k].

(** The number the camera gives the playback overlay of a session that
    starts when the next overlay is [n]: one prep overlay and the countdown
    overlays come first. *)
Definition playback_id (cfg : Config) (n : nat) : nat :=
  (length (range_down (COUNTDOWN cfg)) + S n)%nat.

(** The events of a session up to the distribution. *)
Definition session_events (cfg : Config) (world : World) (l : locals) (p : poll)
    (n : nat) : list event :=
  session_head cfg world l p n
  ++ playback_events cfg world p (playback_id cfg n)
  ++ cue_events (done_cue (taken_photo l))
  ++ done_events cfg world (S (playback_id cfg n)).

(** The events that close a session after a distribution without failure. *)
Definition session_tail (cfg : Config) : list event :=
  if TESTMODE_AUTOPRESS_BUTTON cfg then []
  else [AddEventDetect (CAMERA_BUTTON_PIN cfg);
        AddEventDetect (EXIT_BUTTON_PIN cfg);
        Print "Press the button to take a photo"].

(** The locals with which a session ends, and how it ends. *)
Definition session_locals (cfg : Config) (l : locals) (n : nat) : locals :=
  {| taken_photo := if TESTMODE_AUTOPRESS_BUTTON cfg then taken_photo l
                    else taken_photo l + 1;
     overlay := Renderer (S (S (playback_id cfg n))) |}.

Definition session_control (cfg : Config) (l : locals) (n : nat) : control :=
  if TESTMODE_AUTOPRESS_BUTTON cfg then Break (session_locals cfg l n)
  else Continue (session_locals cfg l n).

(** The state after the overlays of a session were created. *)
Definition session_state (cfg : Config) (s : state) : state :=
  bump 3 (bump (length (range_down (COUNTDOWN cfg))) (bump 1 s)).

(** Whether an iteration in which the exit press is not confirmed goes on
    to a session. *)
Definition session_starts (cfg : Config) (p : poll) : bool :=
  TESTMODE_AUTOPRESS_BUTTON cfg || negb (is_none (confirmed (cam_event p) (cam_input p))).

(** The distribution of the session that starts in state [s]. *)
Definition session_distribution (cfg : Config) (p : poll) (s : state) : outcome unit :=
  distribute p (COPY_IMAGES_TO cfg) [get_base_filename_for_images cfg p]
    (session_state cfg s).

(** A trace with no capture, no copy and no clip. *)
Definition unseen (t : list event) : Prop :=
  captures t = [] /\ copies t = [] /\ sounds t = [].

(** A trace that leaves the overlays on display as they are. *)
Definition still (t : list event) : Prop :=
  forall shown, live_after shown t = shown.

Definition clip_list (clip : option string) : list string :=
  match clip with Some file => [file] | None => [] end.

(** What [main] does before it enters its loop, the locals and the state
    with which it enters it. *)
Definition prologue_events (cfg : Config) (world : World) (s : state) : list event :=
  [Print "Welcome to the photo booth!"; Print ("(version " +++ version +++ ")");
   Print ""; Print "Press the 'Take photo' button to take a photo";
   Print "Use [Ctrl] + [\] to exit"; Print ""]
  ++ trace (health_test_required_folders cfg s)
  ++ [StartPreview (SCREEN_W cfg, SCREEN_H cfg)]
  ++ overlay_events cfg world (next_overlay s) (intro_image cfg) 0 3 "RGB"
  ++ [AddEventDetect (CAMERA_BUTTON_PIN cfg); AddEventDetect (EXIT_BUTTON_PIN cfg)].

Definition initial_locals (s : state) : locals :=
  {| taken_photo := 3; overlay := Renderer (next_overlay s) |}.

Definition loop_entry_state (cfg : Config) (s : state) : state :=
  bump 1 (final (health_test_required_folders cfg s)).

(** ** The properties the description states, where the code departs from them *)

(** Every pair of the iteration order has its copy attempted. *)
Definition every_pair_attempted (p : poll) (dests srcs : list string) (s : state) : Prop :=
  forall pr, In pr (pairs dests srcs) ->
             In pr (copies (trace (distribute p dests srcs s))).

(** The finished overlay of a session is displayed for 3 seconds. *)
Definition finished_shown_3s (cfg : Config) (world : World) (l : locals) (p : poll)
    (s : state) : Prop :=
  exists d, display_time (finished_image cfg) (trace (session cfg world l p s)) = Some d
            /\ (d == 3)%Q.

(** When [main] leaves its loop, no overlay it created is still displayed. *)
Definition overlays_removed_at_exit (cfg : Config) (world : World) (polls : list poll)
    (s : state) : Prop :=
  forall l, value (main cfg world polls s) = Ok (Returned l)
            \/ value (main cfg world polls s) = Ok (Broke l) ->
            displayed (trace (main cfg world polls s)) = [].

(** The loop ends by its test-mode break after one session that captured
    one file and copied it to every destination. *)
Definition one_session_then_exit (cfg : Config) (world : World) (polls : list poll)
    (l : locals) (s : state) : Prop :=
  exists l' f,
    value (main_loop cfg world polls l s) = Ok (Broke l')
    /\ captures (trace (main_loop cfg world polls l s)) = [f]
    /\ forall dest, In dest (COPY_IMAGES_TO cfg) ->
                    In (f, dest) (copies (trace (main_loop cfg world polls l s))).

(** ** Sample inputs *)

Definition booth_cfg : Config := {|
  REAL_PATH := "/home/pi/booth";
  CAMERA_BUTTON_PIN := 21;
  EXIT_BUTTON_PIN := 13;
  TOTAL_PICS := 1;
  PREP_DELAY := 2;
  COUNTDOWN := 3;
  PHOTO_W := 1920;
  PHOTO_H := 1152;
  SCREEN_W := 800;
  SCREEN_H := 480;
  CAMERA_ROTATION := 0;
  CAMERA_HFLIP := true;
  DEBOUNCE_TIME := 0.05;
  TESTMODE_AUTOPRESS_BUTTON := false;
  SAVE_RAW_IMAGES_FOLDER := "photos";
  COPY_IMAGES_TO := ["usb"; "backup"]
|}.

Definition test_cfg : Config := {|
  REAL_PATH := "/home/pi/booth";
  CAMERA_BUTTON_PIN := 21;
  EXIT_BUTTON_PIN := 13;
  TOTAL_PICS := 1;
  PREP_DELAY := 2;
  COUNTDOWN := 3;
  PHOTO_W := 1920;
  PHOTO_H := 1152;
  SCREEN_W := 800;
  SCREEN_H := 480;
  CAMERA_ROTATION := 0;
  CAMERA_HFLIP := true;
  DEBOUNCE_TIME := 0.05;
  TESTMODE_AUTOPRESS_BUTTON := true;
  SAVE_RAW_IMAGES_FOLDER := "photos";
  COPY_IMAGES_TO := ["usb"; "backup"]
|}.

(** Every image is 1000 x 601; the resize height is computed exactly. *)
Definition sample_world : World := {|
  image_size := fun _ => (1000, 601);
  resize_height := fun basewidth w h => (h * basewidth) / w
|}.

Definition clock : string := "2017-12-31 23:59:59.123456".

(** Nothing happened on either pin. *)
Definition idle : poll := {|
  cam_event := false; cam_input := 1;
  exit_event := false; exit_input := 1;
  now := clock; copy_ok := fun _ _ => true
|}.

(** The capture button is held down. *)
Definition press : poll := {|
  cam_event := true; cam_input := 0;
  exit_event := false; exit_input := 1;
  now := clock; copy_ok := fun _ _ => true
|}.

(** The capture button bounced: an edge, and the pin is back at 1. *)
Definition bounce : poll := {|
  cam_event := true; cam_input := 1;
  exit_event := false; exit_input := 1;
  now := clock; copy_ok := fun _ _ => true
|}.

(** The exit button is held down. *)
Definition exit_press : poll := {|
  cam_event := false; cam_input := 1;
  exit_event := true; exit_input := 0;
  now := clock; copy_ok := fun _ _ => true
|}.

(** Both buttons are held down. *)
Definition both_press : poll := {|
  cam_event := true; cam_input := 0;
  exit_event := true; exit_input := 0;
  now := clock; copy_ok := fun _ _ => true
|}.

(** The capture button is held down and the copy to "usb" fails. *)
Definition press_usb_full : poll := {|
  cam_event := true; cam_input := 0;
  exit_event := false; exit_input := 1;
  now := clock; copy_ok := fun _ dst => negb (String.eqb dst "usb")
|}.

Definition start : state := {| next_overlay := 0; folders := [] |}.

(** The state and the locals with which [main] enters its loop from [start]. *)
Definition ready : state :=
  {| next_overlay := 1; folders := ["backup"; "usb"; "photos"] |}.

Definition start_locals : locals := {| taken_photo := 3; overlay := Renderer 0 |}.

(** ** Loading the configuration

    The module-level code that reads the required and the optional keys
    out of [CONFIG], the dict that the YAML file was parsed into.  A dict
    is a partial function on keys; a missing key raises [KeyError key]. *)

Section Loading.

Variable V : Type.
Variable CONFIG : string -> option V.

(** [isinstance(v, list)], with the items when it holds. *)
Variable as_list : V -> option (list V).

Definition subscript (key : string) : string + V :=
  match CONFIG key with
  | Some v => inr v
  | None => inl key
  end.

Definition try_bind {A B} (m : string + A) (f : A -> string + B) : string + B :=
  match m with
  | inl key => inl key
  | inr a => f a
  end.

(** The values of the required keys, as read. *)
Record required := {
  raw_CAMERA_BUTTON_PIN : V;
  raw_EXIT_BUTTON_PIN : V;
  raw_TOTAL_PICS : V;
  raw_PREP_DELAY : V;
  raw_COUNTDOWN : V;
  raw_PHOTO_W : V;
  raw_PHOTO_H : V;
  raw_SCREEN_W : V;
  raw_SCREEN_H : V;
  raw_CAMERA_ROTATION : V;
  raw_CAMERA_HFLIP : V;
  raw_DEBOUNCE_TIME : V;
  raw_TESTMODE_AUTOPRESS_BUTTON : V;
  raw_SAVE_RAW_IMAGES_FOLDER : V
}.

(** The [try] block of the required config: [inl key] is the [KeyError]
    that sends the program to its error report and [sys.exit()]. *)
Definition load_required : string + required :=
  try_bind (subscript "CAMERA_BUTTON_PIN") (fun v1 =>
  try_bind (subscript "EXIT_BUTTON_PIN") (fun v2 =>
  try_bind (subscript "TOTAL_PICS") (fun v3 =>
  try_bind (subscript "PREP_DELAY") (fun v4 =>
  try_bind (subscript "COUNTDOWN") (fun v5 =>
  try_bind (subscript "PHOTO_W") (fun v6 =>
  try_bind (subscript "PHOTO_H") (fun v7 =>
  try_bind (subscript "SCREEN_W") (fun v8 =>
  try_bind (subscript "SCREEN_H") (fun v9 =>
  try_bind (subscript "CAMERA_ROTATION") (fun v10 =>
  try_bind (subscript "CAMERA_HFLIP") (fun v11 =>
  try_bind (subscript "DEBOUNCE_TIME") (fun v12 =>
  try_bind (subscript "TESTMODE_AUTOPRESS_BUTTON") (fun v13 =>
  try_bind (subscript "SAVE_RAW_IMAGES_FOLDER") (fun v14 =>
  inr {| raw_CAMERA_BUTTON_PIN := v1; raw_EXIT_BUTTON_PIN := v2; raw_TOTAL_PICS := v3;
         raw_PREP_DELAY := v4; raw_COUNTDOWN := v5; raw_PHOTO_W := v6; raw_PHOTO_H := v7;
         raw_SCREEN_W := v8; raw_SCREEN_H := v9; raw_CAMERA_ROTATION := v10;
         raw_CAMERA_HFLIP := v11; raw_DEBOUNCE_TIME := v12;
         raw_TESTMODE_AUTOPRESS_BUTTON := v13;
         raw_SAVE_RAW_IMAGES_FOLDER := v14 |})))))))))))))).

(** The optional config: [COPY_IMAGES_TO] starts empty, is extended by a
    list, appended to by any other value, and left alone on [KeyError]. *)
Definition load_copy_images_to : list V :=
  let COPY_IMAGES_TO0 : list V := [] in
  match subscript "COPY_IMAGES_TO" with
  | inr v =>
      match as_list v with
      | Some items => COPY_IMAGES_TO0 ++ items
      | None => COPY_IMAGES_TO0 ++ [v]
      end
  | inl _ => COPY_IMAGES_TO0
  end.

End Loading.

(** The required keys in the order the program reads them. *)
Definition required_keys : list string :=
  ["CAMERA_BUTTON_PIN"; "EXIT_BUTTON_PIN"; "TOTAL_PICS"; "PREP_DELAY"; "COUNTDOWN";
   "PHOTO_W"; "PHOTO_H"; "SCREEN_W"; "SCREEN_H"; "CAMERA_ROTATION"; "CAMERA_HFLIP";
   "DEBOUNCE_TIME"; "TESTMODE_AUTOPRESS_BUTTON"; "SAVE_RAW_IMAGES_FOLDER"].

(** The values read, in the order of the keys. *)
Definition required_values {V} (r : required V) : list V :=
  [raw_CAMERA_BUTTON_PIN V r; raw_EXIT_BUTTON_PIN V r; raw_TOTAL_PICS V r;
   raw_PREP_DELAY V r; raw_COUNTDOWN V r; raw_PHOTO_W V r; raw_PHOTO_H V r;
   raw_SCREEN_W V r; raw_SCREEN_H V r; raw_CAMERA_ROTATION V r; raw_CAMERA_HFLIP V r;
   raw_DEBOUNCE_TIME V r; raw_TESTMODE_AUTOPRESS_BUTTON V r;
   raw_SAVE_RAW_IMAGES_FOLDER V r].

(** The first of the given keys that the dict lacks. *)
Definition first_missing {V} (CONFIG : string -> option V) (keys : list string)
    : option string :=
  find (fun key => is_none (CONFIG key)) keys.

(** ** Further observations on traces *)


(** The line printed for a folder that is listed a second time. *)
Definition duplicate_notice (folder : string) : string :=
  "ERROR: Cannot use same folder path (" +++ folder +++ ") twice. Refer config file.".

(** The images put on display, in order. *)
Definition shown_images (tr : list event) : list string :=
  flat_map (fun e => match e with
                     | AddOverlay _ data _ => map (fun q => source (fst q)) (pasted data)
                     | _ => []
                     end) tr.

(** The overlays passed to the camera's removal, in order. *)
Definition removals (tr : list event) : list nat :=
  flat_map (fun e => match e with RemoveOverlay id => [id] | _ => [] end) tr.

(** The time slept in a trace, in seconds. *)
Fixpoint slept (tr : list event) : Q :=
  match tr with
  | [] => 0
  | Sleep d :: rest => d + slept rest
  | _ :: rest => slept rest
  end.

(** Edge detection as the trace drives it: the pins on which detection is
    armed after the trace, or [None] when the trace arms a pin that is
    armed, disarms a pin that is not, or asks a pin that is not armed for
    its event. *)
Fixpoint arming (armed : list Z) (tr : list event) : option (list Z) :=
  match tr with
  | [] => Some armed
  | AddEventDetect pin :: rest =>
      if existsb (Z.eqb pin) armed then None else arming (armed ++ [pin]) rest
  | RemoveEventDetect pin :: rest =>
      if existsb (Z.eqb pin) armed
      then arming (filter (fun q => negb (Z.eqb q pin)) armed) rest
      else None
  | EventDetected pin _ :: rest =>
      if existsb (Z.eqb pin) armed then arming armed rest else None
  | _ :: rest => arming armed rest
  end.

(** A trace that neither arms, disarms nor asks. *)
Definition arm_neutral (t : list event) : Prop :=
  forall armed, arming armed t = Some armed.

(** The copies that the session of a poll is to make. *)
Definition todo (cfg : Config) (p : poll) : list (string * string) :=
  map (fun dest => (get_base_filename_for_images cfg p, dest)) (COPY_IMAGES_TO cfg).

(** The polls of a run in whose iteration a session starts: none after a
    confirmed exit press, after a session in test mode or after a session
    in which a copy failed. *)
Fixpoint session_polls (cfg : Config) (polls : list poll) : list poll :=
  match polls with
  | [] => []
  | p :: rest =>
      if negb (is_none (confirmed (exit_event p) (exit_input p))) then []
      else if session_starts cfg p then
        p :: (if TESTMODE_AUTOPRESS_BUTTON cfg then []
              else if is_none (first_failure p (todo cfg p))
                   then session_polls cfg rest
                   else [])
      else session_polls cfg rest
  end.

(** The clips of a session run with the counter at [counter]. *)
Definition session_sounds (counter : Z) : list string :=
  clip_list (countdown_cue counter) ++ [SOUND_CAMERA] ++ clip_list (done_cue counter).

(** The characters of a string. *)
Definition chars (s : string) : list ascii := list_ascii_of_string s.

(** ** Further sample inputs *)

(** The booth with no prep delay. *)
Definition no_prep_cfg : Config := {|
  REAL_PATH := "/home/pi/booth";
  CAMERA_BUTTON_PIN := 21;
  EXIT_BUTTON_PIN := 13;
  TOTAL_PICS := 1;
  PREP_DELAY := 0;
  COUNTDOWN := 3;
  PHOTO_W := 1920;
  PHOTO_H := 1152;
  SCREEN_W := 800;
  SCREEN_H := 480;
  CAMERA_ROTATION := 0;
  CAMERA_HFLIP := true;
  DEBOUNCE_TIME := 0.05;
  TESTMODE_AUTOPRESS_BUTTON := false;
  SAVE_RAW_IMAGES_FOLDER := "photos";
  COPY_IMAGES_TO := ["usb"; "backup"]
|}.

(** The capture button held down later in the same second as [press]. *)
Definition press_later : poll := {|
  cam_event := true; cam_input := 0;
  exit_event := false; exit_input := 1;
  now := "2017-12-31 23:59:59.999999"; copy_ok := fun _ _ => true
|}.

(** A dict with every required key but ["PHOTO_W"] and ["DEBOUNCE_TIME"]. *)
Definition dict_without_two : string -> option Z := fun key =>
  if String.eqb key "PHOTO_W" || String.eqb key "DEBOUNCE_TIME" then None
  else if existsb (String.eqb key) required_keys then Some 1 else None.

(** * Properties *)

(** ** The monad *)

Lemma bind_ok {A B} (m : M A) (f : A -> M B) s t s1 a :
  m s = Out t s1 (Ok a) -> bind m f s = prepend t (f a s1).
Proof. intros E. unfold bind. rewrite E. reflexivity. Qed.

Lemma bind_raised {A B} (m : M A) (f : A -> M B) s t s1 e :
  m s = Out t s1 (Raised e) -> bind m f s = Out t s1 (Raised e).
Proof. intros E. unfold bind. rewrite E. reflexivity. Qed.

Lemma prepend_out {A} t t' s (v : result A) :
  prepend t (Out t' s v) = Out (t ++ t') s v.
Proof. reflexivity. Qed.

Lemma play_sound_run file s :
  play_sound file s = Out [MusicLoad file; MusicPlay] s (Ok tt).
Proof. reflexivity. Qed.

(** ** Overlays *)

Lemma overlay_image_run cfg world image_path duration layer m s :
  overlay_image cfg world image_path duration layer m s =
  Out (overlay_events cfg world (next_overlay s) image_path duration layer m)
      (bump 1 s)
      (Ok (if Qgtb duration 0 then NoOverlay else Renderer (next_overlay s))).
Proof.
  unfold overlay_image, overlay_events, bind, CAMERA_add_overlay, emit, prepend; simpl.
  destruct (Qgtb duration 0); reflexivity.
Qed.

Lemma Qgtb_lt d : Qgtb d 0 = true <-> (0 < d)%Q.
Proof.
  unfold Qgtb. rewrite negb_true_iff, <- not_true_iff_false, Qle_bool_iff.
  split; [apply Qnot_le_lt | apply Qlt_not_le].
Qed.

Lemma Qgtb_zero d : (d == 0)%Q -> Qgtb d 0 = false.
Proof.
  intros E. unfold Qgtb. apply negb_false_iff, Qle_bool_iff.
  rewrite E. apply Qle_refl.
Qed.

(** C6: a call of [overlay_image] with a duration above 0 sleeps for it,
    removes the overlay it created and returns the handle -1; with
    duration 0 it leaves the overlay displayed and returns its renderer;
    [remove_overlay] of the handle -1 calls nothing. *)
Theorem overlay_image_duration_contract cfg world image_path duration layer m s :
  let n := next_overlay s in
  let img := loaded_image cfg world image_path in
  let put := [AddOverlay n (padded m img) (size img); SetLayer n layer] in
  let r := overlay_image cfg world image_path duration layer m s in
  ((0 < duration)%Q ->
     trace r = put ++ [Sleep duration; RemoveOverlay n] /\ value r = Ok NoOverlay)
  /\ ((duration == 0)%Q ->
     trace r = put /\ value r = Ok (Renderer n) /\ Renderer n <> NoOverlay)
  /\ remove_overlay NoOverlay s = Out [] s (Ok tt).
Proof.
  intros n img put r. subst r. rewrite overlay_image_run. unfold overlay_events.
  fold img; fold n; fold put. repeat split.
  - simpl. apply Qgtb_lt in H. rewrite H. reflexivity.
  - simpl. apply Qgtb_lt in H. rewrite H. reflexivity.
  - simpl. rewrite (Qgtb_zero _ H). reflexivity.
  - simpl. rewrite (Qgtb_zero _ H). reflexivity.
  - discriminate.
Qed.

Lemma round_up_least (k w : Z) :
  0 < k ->
  let W := ((w + (k - 1)) / k) * k in
  W mod k = 0 /\ w <= W /\ forall W', W' mod k = 0 -> w <= W' -> W <= W'.
Proof.
  intros Hk W. subst W.
  pose proof (Z.div_mod (w + (k - 1)) k ltac:(lia)) as D.
  pose proof (Z.mod_pos_bound (w + (k - 1)) k Hk) as B.
  repeat split.
  - apply Z.mod_mul. lia.
  - nia.
  - intros W' HW' Hle.
    apply Z.mod_divide in HW'; [|lia]. destruct HW' as [q ->].
    apply Z.mul_le_mono_nonneg_r; [lia|].
    assert ((w + (k - 1)) / k < q + 1); [|lia].
    apply Z.div_lt_upper_bound; [lia|]. nia.
Qed.

Example padding_1000_601 :
  canvas_size (padded "RGB"
                 {| source := "big.png"; size := (1000, 601) |}) = (1024, 608)
  /\ canvas_size (padded "RGB"
                    {| source := "fit.png"; size := (800, 480) |}) = (800, 480).
Proof. split; reflexivity. Qed.

(** C7: the canvas that [overlay_image] hands to the camera has the least
    width that is a multiple of 32 and the least height that is a multiple
    of 16 holding the image as it is after the resize step, the image is
    pasted at (0, 0), and the size given to the renderer is the image's. *)
Theorem overlay_image_padding cfg world image_path duration layer m s :
  let img := loaded_image cfg world image_path in
  let w := fst (size img) in
  let h := snd (size img) in
  let pad := padded m img in
  let W := fst (canvas_size pad) in
  let H := snd (canvas_size pad) in
  hd_error (trace (overlay_image cfg world image_path duration layer m s))
    = Some (AddOverlay (next_overlay s) pad (w, h))
  /\ pasted pad = [(img, (0, 0))]
  /\ W mod 32 = 0 /\ H mod 16 = 0 /\ w <= W /\ h <= H
  /\ (forall W', W' mod 32 = 0 -> w <= W' -> W <= W')
  /\ (forall H', H' mod 16 = 0 -> h <= H' -> H <= H').
Proof.
  intros img w h pad W H.
  destruct (round_up_least 32 w ltac:(lia)) as (W0 & W1 & W2).
  destruct (round_up_least 16 h ltac:(lia)) as (H0 & H1 & H2).
  rewrite overlay_image_run.
  split; [|split].
  - unfold overlay_events; simpl. fold img. subst w h. destruct (size img); reflexivity.
  - reflexivity.
  - subst W H pad; unfold padded; simpl. fold w h. auto 10.
Qed.

(** ** Audio cues *)

Lemma countdown_sound_run n s :
  countdown_sound n s = Out (cue_events (countdown_cue n)) s (Ok tt).
Proof.
  unfold countdown_sound, countdown_cue.
  pose proof (Z.mod_pos_bound n 10 ltac:(lia)) as B.
  assert (n mod 10 = 0 \/ n mod 10 = 1 \/ n mod 10 = 2 \/ n mod 10 = 3 \/ n mod 10 = 4
          \/ n mod 10 = 5 \/ n mod 10 = 6 \/ n mod 10 = 7 \/ n mod 10 = 8 \/ n mod 10 = 9)
    as C by lia.
  repeat (destruct C as [C | C]); rewrite C; reflexivity.
Qed.

Lemma done_sound_run n s :
  done_sound n s = Out (cue_events (done_cue n)) s (Ok tt).
Proof.
  unfold done_sound, done_cue.
  pose proof (Z.mod_pos_bound n 7 ltac:(lia)) as B.
  assert (n mod 7 = 0 \/ n mod 7 = 1 \/ n mod 7 = 2 \/ n mod 7 = 3 \/ n mod 7 = 4
          \/ n mod 7 = 5 \/ n mod 7 = 6) as C by lia.
  repeat (destruct C as [C | C]); rewrite C; reflexivity.
Qed.

Lemma nth_error_clip (clips : list string) (i : Z) :
  0 <= i < Z.of_nat (length clips) ->
  exists clip, nth_error clips (Z.to_nat i) = Some clip /\ In clip clips.
Proof.
  intros B. destruct (nth_error clips (Z.to_nat i)) as [clip|] eqn:E.
  - exists clip. split; [reflexivity | eapply nth_error_In; eassumption].
  - apply nth_error_None in E. lia.
Qed.

Example cues_of_counter_3 :
  countdown_cue 3 = Some SOUND_COUNTDOWN_3 /\ done_cue 3 = Some SOUND_DONE_3
  /\ countdown_cue 14 = None /\ done_cue 14 = Some SOUND_DONE_0.
Proof. repeat split. Qed.

(** C8: the clip played before a capture is the entry [counter % 10] of
    the four countdown clips, and nothing when that remainder is 4 to 9;
    the clip played when a session is done is the entry [counter % 7] of
    the seven done clips; the calls made depend on the counter only, not
    on the state in which the cue is played. *)
Theorem audio_cue_selection (counter : Z) :
  (forall s, countdown_sound counter s = Out (cue_events (countdown_cue counter)) s (Ok tt))
  /\ (forall s, done_sound counter s = Out (cue_events (done_cue counter)) s (Ok tt))
  /\ (0 <= counter mod 10 <= 3 ->
        exists clip, countdown_cue counter = Some clip /\ In clip countdown_clips)
  /\ (4 <= counter mod 10 <= 9 -> countdown_cue counter = None)
  /\ (exists clip, done_cue counter = Some clip /\ In clip done_clips)
  /\ (forall s1 s2, trace (countdown_sound counter s1) = trace (countdown_sound counter s2)
                    /\ trace (done_sound counter s1) = trace (done_sound counter s2)).
Proof.
  repeat split.
  - apply countdown_sound_run.
  - apply done_sound_run.
  - intros B. apply nth_error_clip. simpl. lia.
  - intros B. apply nth_error_None. simpl. lia.
  - apply nth_error_clip. pose proof (Z.mod_pos_bound counter 7 ltac:(lia)). simpl. lia.
  - rewrite !countdown_sound_run. reflexivity.
  - rewrite !done_sound_run. reflexivity.
Qed.

(** ** Buttons *)

Lemma poll_buttons_run cfg p s :
  poll_buttons cfg p s =
  Out (poll_events cfg p) s
      (Ok (confirmed (cam_event p) (cam_input p),
           confirmed (exit_event p) (exit_input p))).
Proof.
  unfold poll_buttons, poll_events, check_events, confirmed.
  destruct (cam_event p), (exit_event p); simpl;
    unfold bind, GPIO_event_detected, GPIO_input, sleep, emit, ret, prepend; simpl;
    repeat match goal with |- context [?x =? 0] => destruct (x =? 0) end;
    reflexivity.
Qed.

Lemma confirmed_iff edge level :
  confirmed edge level = Some true <-> edge = true /\ level = 0.
Proof.
  unfold confirmed. destruct edge; simpl.
  - destruct (Z.eqb_spec level 0); split; intros H; try tauto; try discriminate.
  - split; [discriminate | intros [H _]; discriminate].
Qed.

Lemma confirmed_none edge level :
  confirmed edge level = None <-> ~ (edge = true /\ level = 0).
Proof.
  rewrite <- confirmed_iff. unfold confirmed.
  destruct (edge && (level =? 0)); split; intros; try discriminate; try congruence.
Qed.

Lemma loop_body_exit cfg world l p s :
  confirmed (exit_event p) (exit_input p) = Some true ->
  loop_body cfg world l p s = Out (poll_events cfg p) s (Ok (Return l)).
Proof.
  intros E. unfold loop_body.
  rewrite (bind_ok _ _ _ _ _ _ (poll_buttons_run cfg p s)). simpl.
  rewrite E. simpl. unfold prepend, ret; simpl. rewrite app_nil_r. reflexivity.
Qed.

Lemma main_loop_exit cfg world l p rest s :
  confirmed (exit_event p) (exit_input p) = Some true ->
  main_loop cfg world (p :: rest) l s = Out (poll_events cfg p) s (Ok (Returned l)).
Proof.
  intros E. simpl.
  rewrite (bind_ok _ _ _ _ _ _ (loop_body_exit cfg world l p s E)).
  unfold prepend, ret; simpl. rewrite app_nil_r. reflexivity.
Qed.

(** C4: in an iteration where both presses are confirmed the loop returns:
    the calls of the iteration are the two button checks and nothing of a
    session, whatever the test flag and whatever polls would follow. *)
Theorem exit_button_priority cfg world l p rest s :
  cam_event p = true -> cam_input p = 0 ->
  exit_event p = true -> exit_input p = 0 ->
  let d := DEBOUNCE_TIME cfg in
  main_loop cfg world (p :: rest) l s =
  Out [EventDetected (CAMERA_BUTTON_PIN cfg) true; Sleep d;
       GpioInput (CAMERA_BUTTON_PIN cfg) 0;
       EventDetected (EXIT_BUTTON_PIN cfg) true; Sleep d;
       GpioInput (EXIT_BUTTON_PIN cfg) 0]
      s (Ok (Returned l)).
Proof.
  intros C1 C2 E1 E2 d.
  rewrite main_loop_exit by (apply confirmed_iff; auto).
  unfold poll_events, check_events. rewrite C1, C2, E1, E2. reflexivity.
Qed.

Example both_buttons_held :
  main_loop booth_cfg sample_world [both_press; press] start_locals ready =
  Out [EventDetected 21 true; Sleep 0.05; GpioInput 21 0;
       EventDetected 13 true; Sleep 0.05; GpioInput 13 0]
      ready (Ok (Returned start_locals)).
Proof. reflexivity. Qed.

Lemma exit_button_priority_witness :
  main_loop test_cfg sample_world [both_press; press] start_locals ready =
  Out [EventDetected 21 true; Sleep 0.05; GpioInput 21 0;
       EventDetected 13 true; Sleep 0.05; GpioInput 13 0]
      ready (Ok (Returned start_locals)).
Proof.
  apply (exit_button_priority test_cfg sample_world start_locals both_press [press] ready);
    reflexivity.
Defined.

(** ** Distribution *)

Lemma copies_app t1 t2 : copies (t1 ++ t2) = copies t1 ++ copies t2.
Proof. apply flat_map_app. Qed.

Lemma captures_app t1 t2 : captures (t1 ++ t2) = captures t1 ++ captures t2.
Proof. apply flat_map_app. Qed.

Lemma sounds_app t1 t2 : sounds (t1 ++ t2) = sounds t1 ++ sounds t2.
Proof. apply flat_map_app. Qed.

Lemma attempts_app_ok p l1 l2 :
  first_failure p l1 = None ->
  attempts p (l1 ++ l2) = l1 ++ attempts p l2
  /\ first_failure p (l1 ++ l2) = first_failure p l2.
Proof.
  unfold first_failure. induction l1 as [|[src dst] l1 IH]; simpl; intros H.
  - split; reflexivity.
  - destruct (copy_ok p src dst); simpl in *; [|discriminate].
    destruct (IH H) as [-> ->]. split; reflexivity.
Qed.

Lemma attempts_app_fail p l1 l2 q :
  first_failure p l1 = Some q ->
  attempts p (l1 ++ l2) = attempts p l1
  /\ first_failure p (l1 ++ l2) = Some q.
Proof.
  unfold first_failure. induction l1 as [|[src dst] l1 IH]; simpl; intros H.
  - discriminate.
  - destruct (copy_ok p src dst); simpl in *.
    + destruct (IH H) as [-> ->]. split; reflexivity.
    + split; [reflexivity | assumption].
Qed.

Lemma attempts_all p l : first_failure p l = None -> attempts p l = l.
Proof.
  intros H. destruct (attempts_app_ok p l [] H) as [E _].
  rewrite !app_nil_r in E. exact E.
Qed.

Lemma attempts_upto p before src dst after :
  first_failure p before = None -> copy_ok p src dst = false ->
  attempts p (before ++ (src, dst) :: after) = before ++ [(src, dst)]
  /\ first_failure p (before ++ (src, dst) :: after) = Some (src, dst).
Proof.
  intros H F. destruct (attempts_app_ok p before ((src, dst) :: after) H) as [-> ->].
  unfold first_failure; simpl. rewrite F. split; reflexivity.
Qed.

Lemma copy_step_run p src dest s :
  (print (src +++ " -> " +++ dest) ;; copy2 p src dest) s =
  Out [Print (src +++ " -> " +++ dest); Copy2 src dest (copy_ok p src dest)] s
      (if copy_ok p src dest then Ok tt else Raised (CopyError src dest)).
Proof.
  unfold bind, print, copy2, emit, raise, prepend.
  destruct (copy_ok p src dest); reflexivity.
Qed.

(** The inner loop: the sources copied to one destination. *)
Lemma copy_loop_run p dest srcs s :
  let r := for_each srcs (fun src => print (src +++ " -> " +++ dest) ;; copy2 p src dest) s in
  let l := map (fun src => (src, dest)) srcs in
  final r = s /\ copies (trace r) = attempts p l /\ value r = distribute_value p l.
Proof.
  induction srcs as [|src srcs IH]; simpl.
  - repeat split.
  - destruct IH as (F & C & V). unfold distribute_value, first_failure in *. simpl.
    pose proof (copy_step_run p src dest s) as R.
    destruct (copy_ok p src dest) eqn:E; simpl.
    + rewrite (bind_ok _ _ _ _ _ _ R). simpl. rewrite F, C, V. repeat split.
    + rewrite (bind_raised _ _ _ _ _ _ R). simpl. repeat split.
Qed.

Lemma distribute_run p dests srcs s :
  let r := distribute p dests srcs s in
  final r = s
  /\ copies (trace r) = attempts p (pairs dests srcs)
  /\ value r = distribute_value p (pairs dests srcs).
Proof.
  induction dests as [|dest dests IH]; simpl.
  - repeat split.
  - destruct IH as (F & C & V).
    destruct (copy_loop_run p dest srcs s) as (F1 & C1 & V1).
    unfold distribute in *. simpl.
    destruct (for_each srcs _ s) as [t s1 v] eqn:R. simpl in *. subst s1.
    unfold distribute_value in *.
    destruct (first_failure p (map (fun src => (src, dest)) srcs)) as [[fs fd]|] eqn:FF.
    + subst v. destruct (attempts_app_fail p _ (pairs dests srcs) _ FF) as [-> ->].
      rewrite (bind_raised _ _ _ _ _ _ R). simpl. auto.
    + subst v. destruct (attempts_app_ok p _ (pairs dests srcs) FF) as [-> ->].
      rewrite (bind_ok _ _ _ _ _ _ R). simpl.
      rewrite copies_app, F, C1, C, V, (attempts_all _ _ FF). auto.
Qed.

(** C1 (as the code has it): the pairs are tried destination by
    destination, each source in turn, and the first copy that fails raises
    out of the loops, so that no later pair is tried; when no copy fails
    every pair is tried once, in order. *)
Theorem distribution_stops_at_first_failure p dests srcs s :
  let r := distribute p dests srcs s in
  copies (trace r) = attempts p (pairs dests srcs)
  /\ (first_failure p (pairs dests srcs) = None ->
        copies (trace r) = pairs dests srcs /\ value r = Ok tt)
  /\ (forall before src dst after,
        pairs dests srcs = before ++ (src, dst) :: after ->
        first_failure p before = None -> copy_ok p src dst = false ->
        copies (trace r) = before ++ [(src, dst)]
        /\ value r = Raised (CopyError src dst)).
Proof.
  intros r. destruct (distribute_run p dests srcs s) as (_ & C & V). fold r in C, V.
  split; [exact C|]. split.
  - intros H. rewrite C, V. unfold distribute_value. rewrite H.
    split; [apply attempts_all; exact H | reflexivity].
  - intros before src dst after E H F. rewrite C, V, E. unfold distribute_value.
    destruct (attempts_upto p before src dst after H F) as [-> ->].
    split; reflexivity.
Qed.

(** C1 as stated fails: with destinations "usb" and "backup", when the
    copy to "usb" fails the copy to "backup" is not tried. *)
Lemma copy_failure_aborts_distribution :
  ~ every_pair_attempted press_usb_full ["usb"; "backup"] ["photo.jpg"] start.
Proof.
  intros H. specialize (H ("photo.jpg", "backup")).
  vm_compute in H.
  destruct H as [H | H]; [right; left; reflexivity | discriminate H | exact H].
Qed.

(** ** Sessions *)

Lemma countdown_run cfg world counters s :
  for_each counters (fun counter =>
    let get_ready_image := REAL_PATH cfg +++ "/assets/wait-" +++ str counter +++ ".png" in
    _ <- overlay_image cfg world get_ready_image 1 3 "RGBA" ;;
    ret tt) s =
  Out (countdown_events cfg world (next_overlay s) counters)
      (bump (length counters) s) (Ok tt).
Proof.
  revert s. induction counters as [|counter rest IH]; intros s.
  - destruct s; reflexivity.
  - cbn [for_each countdown_events].
    rewrite (bind_ok _ _ s
               (overlay_events cfg world (next_overlay s) (wait_image cfg counter) 1 3 "RGBA")
               (bump 1 s) tt).
    + rewrite IH. unfold prepend; simpl. f_equal.
      unfold bump; simpl. f_equal. lia.
    + rewrite (bind_ok _ _ _ _ _ _ (overlay_image_run cfg world _ 1 3 "RGBA" s)).
      reflexivity.
Qed.

Lemma taking_photo_run cfg world photo_number filename s :
  taking_photo cfg world photo_number filename s =
  Out (countdown_events cfg world (next_overlay s) (range_down (COUNTDOWN cfg))
       ++ [MusicLoad SOUND_CAMERA; MusicPlay; AnnotateText ""; Capture filename;
           Print ("Photo (" +++ str photo_number +++ ") saved: " +++ filename)])
      (bump (length (range_down (COUNTDOWN cfg))) s) (Ok filename).
Proof.
  unfold taking_photo.
  rewrite (bind_ok _ _ _ _ _ _ (countdown_run cfg world _ s)).
  reflexivity.
Qed.

Lemma prep_for_photo_screen_run cfg world photo_number s :
  prep_for_photo_screen cfg world photo_number s =
  Out (overlay_events cfg world (next_overlay s) (REAL_PATH cfg +++ "/assets/souriez.png")
         (PREP_DELAY cfg) 4 "RGBA")
      (bump 1 s) (Ok tt).
Proof.
  unfold prep_for_photo_screen.
  rewrite (bind_ok _ _ _ _ _ _ (overlay_image_run cfg world _ _ _ _ s)).
  unfold prepend, ret; cbn [trace final value]. rewrite app_nil_r.
  destruct (Qgtb (PREP_DELAY cfg) 0); reflexivity.
Qed.

Lemma remove_overlay_run h s : remove_overlay h s = Out (remove_events h) s (Ok tt).
Proof. destruct h; reflexivity. Qed.

Lemma session_close_run (a b : event) (c : string) (v : control) s :
  (emit a ;; emit b ;; print c ;; ret v) s = Out [a; b; Print c] s (Ok v).
Proof. reflexivity. Qed.

Ltac flatten_trace :=
  unfold session_events, session_head, playback_events, done_events,
    playback_id, finished_image;
  rewrite ?prepend_out; f_equal;
  repeat rewrite <- app_assoc; cbn [app]; rewrite ?app_nil_r.

(** A session, call by call: its events up to the distribution, then the
    distribution, then (when no copy failed) the closing events. *)
Lemma session_run cfg world l p s :
  let s' := session_state cfg s in
  let d := distribute p (COPY_IMAGES_TO cfg) [get_base_filename_for_images cfg p] s' in
  session cfg world l p s =
  match value d with
  | Ok _ => Out (session_events cfg world l p (next_overlay s) ++ trace d ++ session_tail cfg)
                s' (Ok (session_control cfg l (next_overlay s)))
  | Raised e => Out (session_events cfg world l p (next_overlay s) ++ trace d) s' (Raised e)
  end.
Proof.
  intros s' d. unfold session.
  unfold print at 1. unfold emit at 1 2 3.
  unfold bind at 1 2 3. cbn [prepend trace final value].
  rewrite (bind_ok _ _ _ _ _ _ (prep_for_photo_screen_run cfg world 1 s)).
  rewrite (bind_ok _ _ _ _ _ _ (remove_overlay_run (overlay l) _)).
  rewrite (bind_ok _ _ _ _ _ _ (countdown_sound_run (taken_photo l) _)).
  rewrite (bind_ok _ _ _ _ _ _ (taking_photo_run cfg world 1 _ _)).
  rewrite (bind_ok _ _ _ _ _ _ (overlay_image_run cfg world _ 2 3 "RGB" _)).
  rewrite (bind_ok _ _ _ _ _ _ (done_sound_run (taken_photo l) _)).
  rewrite (bind_ok _ _ _ _ _ _ (overlay_image_run cfg world _ 0 4 "RGB" _)).
  rewrite (bind_ok _ _ _ _ _ _ (overlay_image_run cfg world _ 0 3 "RGB" _)).
  change (Qgtb 0 0) with false. change (Qgtb 2 0) with true. cbv iota.
  unfold sleep at 1. unfold emit at 1. unfold bind at 1.
  rewrite (bind_ok _ _ _ _ _ _ (remove_overlay_run (Renderer _) _)).
  destruct (distribute_run p (COPY_IMAGES_TO cfg) [get_base_filename_for_images cfg p] s')
    as (F & _ & _).
  fold d in F.
  change (bump 1 (bump 1 (bump 1 (bump (length (range_down (COUNTDOWN cfg))) (bump 1 s)))))
    with s'.
  change ([] ++ [get_base_filename_for_images cfg p]) with [get_base_filename_for_images cfg p].
  unfold bind at 1. fold d.
  destruct d as [td sd vd]. cbn [final value trace] in *. subst sd.
  unfold overlay_events at 2 3 4.
  change (Qgtb 0 0) with false. change (Qgtb 2 0) with true. cbv iota.
  cbn [next_overlay bump remove_events].
  destruct vd as [[]|e].
  - unfold session_tail, session_control, session_locals, playback_id.
    destruct (TESTMODE_AUTOPRESS_BUTTON cfg).
    + unfold ret. flatten_trace. reflexivity.
    + rewrite session_close_run. flatten_trace. reflexivity.
  - flatten_trace. reflexivity.
Qed.

(** ** The loop, one iteration at a time *)

Lemma loop_body_run cfg world l p s :
  loop_body cfg world l p s =
  if negb (is_none (confirmed (exit_event p) (exit_input p)))
  then Out (poll_events cfg p) s (Ok (Return l))
  else if session_starts cfg p
       then prepend (poll_events cfg p) (session cfg world l p s)
       else Out (poll_events cfg p ++ [Sleep 0.1]) s (Ok (Continue l)).
Proof.
  unfold loop_body, session_starts.
  rewrite (bind_ok _ _ _ _ _ _ (poll_buttons_run cfg p s)). cbn [fst snd].
  destruct (confirmed (exit_event p) (exit_input p)); cbn [is_none negb].
  - unfold ret, prepend; cbn [trace final value]. rewrite app_nil_r. reflexivity.
  - destruct (TESTMODE_AUTOPRESS_BUTTON cfg); cbn [orb is_none].
    + reflexivity.
    + destruct (confirmed (cam_event p) (cam_input p)); cbn [is_none negb].
      * reflexivity.
      * reflexivity.
Qed.

(** The unfolding of [main_loop] by one iteration. *)
Lemma main_loop_step cfg world l p rest s :
  let n := next_overlay s in
  let s' := session_state cfg s in
  let d := session_distribution cfg p s in
  main_loop cfg world (p :: rest) l s =
  if negb (is_none (confirmed (exit_event p) (exit_input p)))
  then Out (poll_events cfg p) s (Ok (Returned l))
  else if session_starts cfg p
       then match value d with
            | Ok _ =>
                let t := poll_events cfg p ++ session_events cfg world l p n
                         ++ trace d ++ session_tail cfg in
                if TESTMODE_AUTOPRESS_BUTTON cfg
                then Out t s' (Ok (Broke (session_locals cfg l n)))
                else prepend t (main_loop cfg world rest (session_locals cfg l n) s')
            | Raised e =>
                Out (poll_events cfg p ++ session_events cfg world l p n ++ trace d)
                    s' (Raised e)
            end
       else prepend (poll_events cfg p ++ [Sleep 0.1]) (main_loop cfg world rest l s).
Proof.
  intros n s' d. cbn [main_loop]. unfold bind at 1. rewrite loop_body_run.
  destruct (negb (is_none (confirmed (exit_event p) (exit_input p)))).
  - unfold ret, prepend; cbn [trace final value]. rewrite app_nil_r. reflexivity.
  - destruct (session_starts cfg p).
    + rewrite session_run.
      change (distribute p (COPY_IMAGES_TO cfg) [get_base_filename_for_images cfg p]
                (session_state cfg s)) with d.
      fold s' n.
      destruct (value d) as [[]|e]; cbv beta iota.
      * rewrite prepend_out. unfold session_control.
        destruct (TESTMODE_AUTOPRESS_BUTTON cfg).
        -- unfold ret, prepend; cbn [trace final value].
           rewrite app_nil_r. reflexivity.
        -- reflexivity.
      * rewrite prepend_out. reflexivity.
    + reflexivity.
Qed.

(** C5: whatever the debounce interval and the pins, after an edge the
    program sleeps the interval and reads the pin again, and the press is
    confirmed exactly when that reading is 0; an edge whose reading is not
    0 confirms nothing: on the capture pin the iteration ends in the idle
    sleep with no session (test flag off), on the exit pin the loop does
    not return. *)
Theorem debounce_confirms_only_active cfg world l p s :
  let d := DEBOUNCE_TIME cfg in
  let r := poll_buttons cfg p s in
  trace r = check_events d (CAMERA_BUTTON_PIN cfg) (cam_event p) (cam_input p)
            ++ check_events d (EXIT_BUTTON_PIN cfg) (exit_event p) (exit_input p)
  /\ (forall pin level, check_events d pin true level
                        = [EventDetected pin true; Sleep d; GpioInput pin level])
  /\ value r = Ok (confirmed (cam_event p) (cam_input p),
                   confirmed (exit_event p) (exit_input p))
  /\ (forall edge level, confirmed edge level = Some true <-> edge = true /\ level = 0)
  /\ (forall level, level <> 0 -> confirmed true level = None)
  /\ (cam_event p = true -> cam_input p <> 0 ->
      TESTMODE_AUTOPRESS_BUTTON cfg = false ->
      confirmed (exit_event p) (exit_input p) = None ->
      loop_body cfg world l p s
      = Out (poll_events cfg p ++ [Sleep 0.1]) s (Ok (Continue l)))
  /\ (exit_event p = true -> exit_input p <> 0 ->
      forall l', value (loop_body cfg world l p s) <> Ok (Return l')).
Proof.
  intros d r. subst r. rewrite poll_buttons_run.
  split; [reflexivity|]. split; [reflexivity|]. split; [reflexivity|].
  split; [apply confirmed_iff|].
  split; [intros level H; apply confirmed_none; tauto|].
  split.
  - intros E H T X. rewrite loop_body_run, X. unfold session_starts.
    rewrite T, E. rewrite (proj2 (confirmed_none true (cam_input p))) by tauto.
    reflexivity.
  - intros E H l'. rewrite loop_body_run, E.
    rewrite (proj2 (confirmed_none true (exit_input p))) by tauto.
    cbn [is_none negb].
    destruct (session_starts cfg p); [|discriminate].
    rewrite session_run. unfold session_control.
    destruct (value (distribute p (COPY_IMAGES_TO cfg) _ (session_state cfg s)));
      cbn [prepend value]; [|discriminate].
    destruct (TESTMODE_AUTOPRESS_BUTTON cfg); discriminate.
Qed.

Example capture_button_bounce :
  loop_body booth_cfg sample_world start_locals bounce ready =
  Out [EventDetected 21 true; Sleep 0.05; GpioInput 21 1; EventDetected 13 false;
       Sleep 0.1]
      ready (Ok (Continue start_locals)).
Proof. reflexivity. Qed.

(** ** What the parts of a trace show *)

Lemma unseen_app t1 t2 : unseen t1 -> unseen t2 -> unseen (t1 ++ t2).
Proof.
  unfold unseen. intros (A1 & B1 & C1) (A2 & B2 & C2).
  rewrite captures_app, copies_app, sounds_app, A1, A2, B1, B2, C1, C2. auto.
Qed.

Lemma unseen_overlay_events cfg world n image_path duration layer m :
  unseen (overlay_events cfg world n image_path duration layer m).
Proof. unfold overlay_events. destruct (Qgtb duration 0); repeat split. Qed.

Lemma unseen_countdown_events cfg world counters :
  forall n, unseen (countdown_events cfg world n counters).
Proof.
  induction counters as [|c rest IH]; intros n; cbn [countdown_events].
  - repeat split.
  - apply unseen_app; [apply unseen_overlay_events | apply IH].
Qed.

Lemma unseen_remove_events h : unseen (remove_events h).
Proof. destruct h; repeat split. Qed.

Lemma unseen_poll_events cfg p : unseen (poll_events cfg p).
Proof.
  unfold poll_events, check_events.
  destruct (cam_event p), (exit_event p); repeat split.
Qed.

Lemma cue_events_shows clip :
  captures (cue_events clip) = [] /\ copies (cue_events clip) = []
  /\ sounds (cue_events clip) = clip_list clip.
Proof. destruct clip; repeat split. Qed.

Lemma session_tail_unseen cfg : unseen (session_tail cfg).
Proof. unfold session_tail. destruct (TESTMODE_AUTOPRESS_BUTTON cfg); repeat split. Qed.

Lemma live_after_app t1 t2 :
  forall shown, live_after shown (t1 ++ t2) = live_after (live_after shown t1) t2.
Proof.
  induction t1 as [|e t1 IH]; intros shown; [reflexivity|].
  destruct e; cbn [app live_after]; apply IH.
Qed.

Lemma still_app t1 t2 : still t1 -> still t2 -> still (t1 ++ t2).
Proof.
  unfold still. intros A B shown. rewrite live_after_app, A, B. reflexivity.
Qed.

Lemma copy_loop_quiet p dest srcs s :
  let t := trace (for_each srcs (fun src => print (src +++ " -> " +++ dest) ;;
                                            copy2 p src dest) s) in
  captures t = [] /\ sounds t = [] /\ still t.
Proof.
  induction srcs as [|src srcs IH]; cbn [for_each].
  - repeat split.
  - pose proof (copy_step_run p src dest s) as R.
    destruct (copy_ok p src dest).
    + rewrite (bind_ok _ _ _ _ _ _ R). cbn [prepend trace].
      destruct IH as (A & B & C).
      rewrite captures_app, sounds_app, A, B. repeat split.
      apply still_app; [intros shown; reflexivity | exact C].
    + rewrite (bind_raised _ _ _ _ _ _ R). repeat split.
Qed.

Lemma distribute_quiet p dests srcs s :
  let t := trace (distribute p dests srcs s) in
  captures t = [] /\ sounds t = [] /\ still t.
Proof.
  unfold distribute. induction dests as [|dest dests IH]; cbn [for_each].
  - repeat split.
  - destruct (copy_loop_quiet p dest srcs s) as (A & B & C).
    destruct (copy_loop_run p dest srcs s) as (D & _ & _).
    destruct (for_each srcs _ s) as [t s1 [[]|e]] eqn:R; cbn [trace final] in *; subst s1.
    + rewrite (bind_ok _ _ _ _ _ _ R). cbn [prepend trace].
      destruct IH as (A' & B' & C').
      rewrite captures_app, sounds_app, A, B, A', B'. repeat split.
      apply still_app; assumption.
    + rewrite (bind_raised _ _ _ _ _ _ R). cbn [trace]. auto.
Qed.

Lemma session_events_shows cfg world l p n :
  let t := session_events cfg world l p n in
  captures t = [get_base_filename_for_images cfg p]
  /\ copies t = []
  /\ sounds t = clip_list (countdown_cue (taken_photo l)) ++ [SOUND_CAMERA]
                ++ clip_list (done_cue (taken_photo l)).
Proof.
  destruct (unseen_overlay_events cfg world n (REAL_PATH cfg +++ "/assets/souriez.png")
              (PREP_DELAY cfg) 4 "RGBA") as (A1 & B1 & C1).
  destruct (unseen_remove_events (overlay l)) as (A2 & B2 & C2).
  destruct (cue_events_shows (countdown_cue (taken_photo l))) as (A3 & B3 & C3).
  destruct (unseen_countdown_events cfg world (range_down (COUNTDOWN cfg)) (S n))
    as (A4 & B4 & C4).
  destruct (cue_events_shows (done_cue (taken_photo l))) as (A5 & B5 & C5).
  unfold session_events, session_head, playback_events, done_events.
  repeat split.
  - rewrite !captures_app, A1, A2, A3, A4, A5. reflexivity.
  - rewrite !copies_app, B1, B2, B3, B4, B5. reflexivity.
  - rewrite !sounds_app, C1, C2, C3, C4, C5.
    cbn [sounds flat_map app]. rewrite app_nil_r, <- app_assoc. reflexivity.
Qed.

Lemma source_loaded_image cfg world image_path :
  source (loaded_image cfg world image_path) = image_path.
Proof.
  unfold loaded_image, Image_open. cbn [size fst].
  destruct (fst (image_size world image_path) >? SCREEN_W cfg); reflexivity.
Qed.

Lemma display_time_playback cfg world p k rest :
  display_time (get_base_filename_for_images cfg p)
    (playback_events cfg world p k ++ rest) = Some 2%Q.
Proof.
  unfold playback_events. cbn [app display_time padded paste Image_new pasted existsb fst].
  rewrite source_loaded_image, String.eqb_refl.
  cbn [orb sleep_until_removed]. rewrite Nat.eqb_refl. reflexivity.
Qed.

Lemma display_time_finished cfg world k rest :
  display_time (finished_image cfg) (done_events cfg world k ++ rest) = Some 2%Q.
Proof.
  unfold done_events. cbn [app display_time padded paste Image_new pasted existsb fst].
  rewrite source_loaded_image, String.eqb_refl.
  cbn [orb sleep_until_removed]. rewrite Nat.eqb_refl. reflexivity.
Qed.

(** [playback_screen], which [main] does not call, is where a finished
    overlay is displayed for 3 seconds. *)
Lemma playback_screen_run cfg world filename s :
  playback_screen cfg world filename s =
  Out (overlay_events cfg world (next_overlay s) filename 2 3 "RGB"
       ++ [Print "All done!"]
       ++ overlay_events cfg world (S (next_overlay s)) (finished_image cfg) 3 3 "RGB")
      (bump 2 s) (Ok tt).
Proof.
  unfold playback_screen.
  rewrite (bind_ok _ _ _ _ _ _ (overlay_image_run cfg world _ 2 3 "RGB" s)).
  unfold print at 1. unfold emit at 1. unfold bind at 1.
  rewrite (bind_ok _ _ _ _ _ _ (overlay_image_run cfg world _ 3 3 "RGB" _)).
  unfold ret. rewrite !prepend_out. rewrite app_nil_r. reflexivity.
Qed.

(** C2 (as the code has it): in every session the photo just captured is
    displayed for 2 seconds on layer 3, then the done cue is played, the
    finished overlay is put on layer 4 and the intro overlay on layer 3
    beneath it; the finished overlay is removed after 2 seconds (not 3),
    and nothing in the rest of the session touches the overlays, so that
    the intro overlay stays. *)
Theorem session_playback_then_finished_screen cfg world l p s :
  let n := next_overlay s in
  let k := playback_id cfg n in
  exists rest,
    trace (session cfg world l p s) =
      session_head cfg world l p n
      ++ playback_events cfg world p k
      ++ cue_events (done_cue (taken_photo l))
      ++ done_events cfg world (S k)
      ++ rest
    /\ display_time (get_base_filename_for_images cfg p)
         (playback_events cfg world p k ++ cue_events (done_cue (taken_photo l))
          ++ done_events cfg world (S k) ++ rest) = Some 2%Q
    /\ display_time (finished_image cfg) (done_events cfg world (S k) ++ rest) = Some 2%Q
    /\ still rest.
Proof.
  intros n k. rewrite session_run. fold n.
  destruct (distribute_quiet p (COPY_IMAGES_TO cfg) [get_base_filename_for_images cfg p]
              (session_state cfg s)) as (_ & _ & St).
  destruct (distribute p (COPY_IMAGES_TO cfg) [get_base_filename_for_images cfg p]
              (session_state cfg s)) as [td sd [[]|e]]; cbn [trace value] in *.
  - exists (td ++ session_tail cfg). unfold session_events. fold k.
    rewrite <- !app_assoc.
    split; [reflexivity|]. split; [apply display_time_playback|].
    split; [apply display_time_finished|].
    apply still_app; [exact St|].
    unfold session_tail. destruct (TESTMODE_AUTOPRESS_BUTTON cfg); intros shown; reflexivity.
  - exists td. unfold session_events. fold k. rewrite <- !app_assoc.
    split; [reflexivity|]. split; [apply display_time_playback|].
    split; [apply display_time_finished|]. exact St.
Qed.

(** C2 as stated fails: in a session of the sample booth the finished
    overlay is displayed for 2 seconds. *)
Lemma finished_overlay_shown_two_seconds :
  ~ finished_shown_3s booth_cfg sample_world start_locals press ready.
Proof.
  intros (d & H & E).
  vm_compute in H. injection H as <-. discriminate E.
Qed.

(** ** The prologue of [main] *)

Lemma check_folders_cons folder rest folders_checked s :
  let fresh := negb (existsb (String.eqb folder) folders_checked) in
  let there := existsb (String.eqb folder) (folders s) in
  check_folders (folder :: rest) folders_checked s =
  prepend ((if fresh then []
            else [Print ("ERROR: Cannot use same folder path (" +++ folder
                         +++ ") twice. Refer config file.")])
           ++ (if there then []
               else [Print ("Creating folder: " +++ folder); Makedirs folder]))
    (check_folders rest
       (if fresh then folders_checked ++ [folder] else folders_checked)
       (if there then s
        else {| next_overlay := next_overlay s; folders := folder :: folders s |})).
Proof.
  intros fresh there. subst fresh there. cbn [check_folders].
  unfold os_path_exists, os_makedirs, print, emit, ret, bind. cbv beta iota.
  destruct (negb (existsb (String.eqb folder) folders_checked));
    cbv beta iota; cbn [prepend trace final value]; cbv beta iota;
    destruct (existsb (String.eqb folder) (folders s)); cbn [negb]; cbv beta iota;
    cbn [prepend trace final value];
    match goal with |- context [check_folders rest ?a ?b] =>
      destruct (check_folders rest a b) as [t2 s2 [[]|e]] end;
    cbn [prepend trace final value app]; reflexivity.
Qed.

Lemma check_folders_run folders_list :
  forall folders_checked s,
    value (check_folders folders_list folders_checked s) = Ok tt
    /\ next_overlay (final (check_folders folders_list folders_checked s)) = next_overlay s
    /\ unseen (trace (check_folders folders_list folders_checked s))
    /\ still (trace (check_folders folders_list folders_checked s)).
Proof.
  induction folders_list as [|folder rest IH]; intros folders_checked s.
  - repeat split.
  - rewrite check_folders_cons.
    set (fresh := negb (existsb (String.eqb folder) folders_checked)).
    set (there := existsb (String.eqb folder) (folders s)).
    set (s1 := if there then s else _).
    assert (next_overlay s1 = next_overlay s) as N1 by (subst s1; destruct there; reflexivity).
    destruct (IH (if fresh then folders_checked ++ [folder] else folders_checked) s1)
      as (V & N & U & St).
    cbn [prepend trace final value].
    split; [exact V|]. split; [congruence|]. split.
    + apply unseen_app; [|exact U].
      destruct fresh, there; repeat split.
    + apply still_app; [|exact St].
      destruct fresh, there; intros sh; reflexivity.
Qed.

Lemma main_run cfg world polls s :
  main cfg world polls s =
  prepend (prologue_events cfg world s)
    (main_loop cfg world polls (initial_locals s) (loop_entry_state cfg s)).
Proof.
  unfold main, prologue_events, loop_entry_state, initial_locals.
  destruct (check_folders_run ([SAVE_RAW_IMAGES_FOLDER cfg] ++ COPY_IMAGES_TO cfg) [] s)
    as (V & N & _ & _).
  fold (health_test_required_folders cfg) in V, N.
  unfold print at 1 2 3 4 5 6. unfold emit at 1 2 3 4 5 6.
  unfold bind at 1 2 3 4 5 6. cbn beta iota.
  destruct (health_test_required_folders cfg s) as [th sh vh] eqn:H.
  cbn [trace final value] in *. subst vh.
  rewrite (bind_ok _ _ _ _ _ _ H).
  unfold emit at 1. unfold bind at 1.
  rewrite (bind_ok _ _ _ _ _ _ (overlay_image_run cfg world _ 0 3 "RGB" sh)).
  change (Qgtb 0 0) with false. cbv iota.
  unfold emit at 1 2. unfold bind at 1 2. rewrite N.
  destruct (main_loop cfg world polls _ (bump 1 sh)) as [tl sl vl].
  rewrite !prepend_out. f_equal. cbn [app]. rewrite <- !app_assoc. reflexivity.
Qed.

(** ** Test mode *)

Lemma pairs_single dests f : pairs dests [f] = map (fun dest => (f, dest)) dests.
Proof.
  unfold pairs. induction dests as [|dest dests IH]; simpl in *;
    [reflexivity | f_equal; exact IH].
Qed.

(** C9 (as the code has it): with the test flag set, the first iteration
    ends the loop whatever polls would follow.  When the exit press is
    confirmed it returns with no session.  Otherwise one session runs: it
    captures one file and copies it to the destinations in order up to the
    first copy that fails; when no copy fails the file reached every
    destination and the loop ends by its break, the counter unchanged; when
    a copy fails the loop ends by that exception. *)
Theorem test_mode_single_session cfg world l p rest s :
  TESTMODE_AUTOPRESS_BUTTON cfg = true ->
  let r := main_loop cfg world (p :: rest) l s in
  let f := get_base_filename_for_images cfg p in
  let todo := map (fun dest => (f, dest)) (COPY_IMAGES_TO cfg) in
  (confirmed (exit_event p) (exit_input p) = Some true ->
     value r = Ok (Returned l) /\ captures (trace r) = [] /\ copies (trace r) = [])
  /\ (confirmed (exit_event p) (exit_input p) = None ->
     captures (trace r) = [f]
     /\ copies (trace r) = attempts p todo
     /\ (first_failure p todo = None ->
           copies (trace r) = todo
           /\ exists l', value r = Ok (Broke l') /\ taken_photo l' = taken_photo l)
     /\ (forall src dst, first_failure p todo = Some (src, dst) ->
           value r = Raised (CopyError src dst))).
Proof.
  intros T r f todo. subst r. rewrite main_loop_step.
  destruct (unseen_poll_events cfg p) as (PA & PB & _).
  split; intros E; rewrite E; cbn [is_none negb].
  - cbn [trace value]. auto.
  - unfold session_starts. rewrite T. cbn [orb].
    destruct (session_events_shows cfg world l p (next_overlay s)) as (SA & SB & _).
    destruct (session_tail_unseen cfg) as (TA & TB & _).
    unfold session_distribution.
    destruct (distribute_run p (COPY_IMAGES_TO cfg) [f] (session_state cfg s))
      as (_ & DC & DV).
    destruct (distribute_quiet p (COPY_IMAGES_TO cfg) [f] (session_state cfg s))
      as (DA & _ & _).
    rewrite pairs_single in DC, DV. fold todo in DC, DV. fold f.
    destruct (distribute p (COPY_IMAGES_TO cfg) [f] (session_state cfg s))
      as [td sd vd]. cbn [trace value] in *. subst vd.
    unfold distribute_value.
    destruct (first_failure p todo) as [[fs fd]|] eqn:FF; cbn [trace value].
    + rewrite !captures_app, !copies_app, PA, PB, SA, SB, DA, DC.
      cbn [app]. rewrite ?app_nil_r.
      split; [reflexivity|]. split; [reflexivity|]. split; [discriminate|].
      intros src dst [= <- <-]. reflexivity.
    + cbn [trace value].
      rewrite !captures_app, !copies_app, PA, PB, SA, SB, DA, DC, TA, TB.
      cbn [app]. rewrite ?app_nil_r.
      split; [reflexivity|]. split; [reflexivity|]. split; [|discriminate].
      intros _. split; [apply attempts_all; exact FF|].
      exists (session_locals cfg l (next_overlay s)).
      split; [reflexivity|]. unfold session_locals. cbn [taken_photo].
      rewrite T. reflexivity.
Qed.

Lemma test_mode_single_session_witness :
  captures (trace (main_loop test_cfg sample_world [press; idle] start_locals ready))
  = ["/home/pi/booth/photos/2017-12-31_23-59-59.jpg"]
  /\ copies (trace (main_loop test_cfg sample_world [press; idle] start_locals ready))
     = [("/home/pi/booth/photos/2017-12-31_23-59-59.jpg", "usb");
        ("/home/pi/booth/photos/2017-12-31_23-59-59.jpg", "backup")].
Proof.
  destruct (test_mode_single_session test_cfg sample_world start_locals press [idle] ready
              eq_refl) as [_ H].
  destruct (H eq_refl) as (C & _ & K & _).
  destruct (K eq_refl) as [D _].
  split; [exact C | exact D].
Defined.

(** C9 as stated fails: with the test flag set, when the exit button is
    held down in the first iteration the loop returns and no session ran. *)
Lemma test_mode_exit_before_session :
  ~ one_session_then_exit test_cfg sample_world [exit_press] start_locals ready.
Proof.
  intros (l' & f & V & _). vm_compute in V. discriminate V.
Qed.

(** ** The photo counter *)

Lemma main_loop_counter cfg world polls :
  forall l s e,
    value (main_loop cfg world polls l s) = Ok e ->
    taken_photo (locals_of e) =
    taken_photo l
    + (if TESTMODE_AUTOPRESS_BUTTON cfg then 0
       else Z.of_nat (length (captures (trace (main_loop cfg world polls l s))))).
Proof.
  induction polls as [|p rest IH]; intros l s e.
  - cbn [main_loop ret value trace]. intros [= <-]. cbn [locals_of captures flat_map length].
    destruct (TESTMODE_AUTOPRESS_BUTTON cfg); cbn; lia.
  - rewrite main_loop_step.
    destruct (unseen_poll_events cfg p) as (PA & _ & _).
    destruct (negb (is_none (confirmed (exit_event p) (exit_input p)))).
    { cbn [value trace]. intros [= <-]. rewrite PA. cbn [locals_of length].
      destruct (TESTMODE_AUTOPRESS_BUTTON cfg); cbn; lia. }
    unfold session_starts.
    destruct (session_events_shows cfg world l p (next_overlay s)) as (SA & _ & _).
    destruct (session_tail_unseen cfg) as (TA & _ & _).
    destruct (distribute_quiet p (COPY_IMAGES_TO cfg) [get_base_filename_for_images cfg p]
                (session_state cfg s)) as (DA & _ & _).
    unfold session_distribution.
    destruct (TESTMODE_AUTOPRESS_BUTTON cfg) eqn:T; cbn [orb].
    + destruct (distribute p (COPY_IMAGES_TO cfg) _ (session_state cfg s)) as [td sd [[]|x]];
        cbn [trace value]; [|discriminate].
      intros [= <-]. cbn [locals_of session_locals taken_photo]. rewrite T. lia.
    + destruct (negb (is_none (confirmed (cam_event p) (cam_input p)))).
      * destruct (distribute p (COPY_IMAGES_TO cfg) _ (session_state cfg s))
          as [td sd [[]|x]]; cbn [trace value] in *; [|discriminate].
        cbn [prepend value trace]. intros V. rewrite (IH _ _ _ V).
        rewrite !captures_app, PA, SA, DA, TA.
        cbn [session_locals taken_photo app length]. rewrite T. lia.
      * cbn [prepend value trace]. intros V. rewrite (IH _ _ _ V).
        rewrite !captures_app, PA. cbn [app captures flat_map]. reflexivity.
Qed.

(** C10: the loop is entered with the counter at 3; whenever a run of
    [main] stands at a point of its loop the counter is 3 plus the number
    of photos captured, each taken by one session run to its end, and it is
    still 3 when the test flag is set; a session run with the counter at 3
    plays the countdown clip 3 and the done clip 3. *)
Theorem photo_counter cfg world polls s :
  (exists l0, value (main cfg world [] s) = Ok (Polling l0) /\ taken_photo l0 = 3)
  /\ (forall e, value (main cfg world polls s) = Ok e ->
        taken_photo (locals_of e) =
        3 + (if TESTMODE_AUTOPRESS_BUTTON cfg then 0
             else Z.of_nat (length (captures (trace (main cfg world polls s))))))
  /\ (forall l p s1, taken_photo l = 3 ->
        sounds (trace (session cfg world l p s1))
        = [SOUND_COUNTDOWN_3; SOUND_CAMERA; SOUND_DONE_3]
        /\ nth_error countdown_clips 3 = Some SOUND_COUNTDOWN_3
        /\ nth_error done_clips 3 = Some SOUND_DONE_3).
Proof.
  split; [|split].
  - exists (initial_locals s). rewrite main_run. split; reflexivity.
  - intros e. rewrite main_run. cbn [prepend value trace]. intros V.
    rewrite (main_loop_counter _ _ _ _ _ _ V). cbn [initial_locals taken_photo].
    destruct (TESTMODE_AUTOPRESS_BUTTON cfg); [reflexivity|].
    rewrite captures_app.
    replace (captures (prologue_events cfg world s)) with (@nil string); [reflexivity|].
    unfold prologue_events.
    destruct (check_folders_run ([SAVE_RAW_IMAGES_FOLDER cfg] ++ COPY_IMAGES_TO cfg) [] s)
      as (_ & _ & (HA & _ & _) & _).
    fold (health_test_required_folders cfg) in HA.
    destruct (unseen_overlay_events cfg world (next_overlay s) (intro_image cfg) 0 3 "RGB")
      as (OA & _ & _).
    rewrite !captures_app, HA, OA. reflexivity.
  - intros l p s1 E. split; [|split; reflexivity].
    rewrite session_run.
    destruct (session_events_shows cfg world l p (next_overlay s1)) as (_ & _ & SC).
    destruct (session_tail_unseen cfg) as (_ & _ & TC).
    destruct (distribute_quiet p (COPY_IMAGES_TO cfg) [get_base_filename_for_images cfg p]
                (session_state cfg s1)) as (_ & DC & _).
    rewrite E in SC.
    destruct (distribute p (COPY_IMAGES_TO cfg) _ (session_state cfg s1))
      as [td sd [[]|x]]; cbn [trace value] in *;
      rewrite !sounds_app, ?SC, ?DC, ?TC; reflexivity.
Qed.

(** ** Overlays on display *)

Lemma filter_other (n : nat) (shown : list nat) :
  ~ In n shown -> filter (fun j => negb (Nat.eqb j n)) shown = shown.
Proof.
  induction shown as [|j shown IH]; intros H; [reflexivity|].
  cbn [filter]. destruct (Nat.eqb_spec j n) as [->|Hn]; cbn [negb].
  - exfalso. apply H. left. reflexivity.
  - f_equal. apply IH. intros K. apply H. right. exact K.
Qed.

Lemma live_overlay_timed cfg world n image_path duration layer m shown :
  Qgtb duration 0 = true -> ~ In n shown ->
  live_after shown (overlay_events cfg world n image_path duration layer m) = shown.
Proof.
  intros D H. unfold overlay_events. rewrite D. cbn [app live_after].
  rewrite filter_app, (filter_other n shown H). cbn [filter].
  rewrite Nat.eqb_refl. cbn [negb]. apply app_nil_r.
Qed.

Lemma live_countdown cfg world counters :
  forall n, live_after [] (countdown_events cfg world n counters) = [].
Proof.
  induction counters as [|c rest IH]; intros n; cbn [countdown_events]; [reflexivity|].
  rewrite live_after_app, live_overlay_timed; [apply IH | reflexivity | intros []].
Qed.

Lemma still_cue_events clip : still (cue_events clip).
Proof. destruct clip; intros shown; reflexivity. Qed.

Lemma still_poll_events cfg p : still (poll_events cfg p).
Proof.
  unfold poll_events, check_events.
  destruct (cam_event p), (exit_event p); intros shown; reflexivity.
Qed.

Lemma still_session_tail cfg : still (session_tail cfg).
Proof.
  unfold session_tail. destruct (TESTMODE_AUTOPRESS_BUTTON cfg); intros shown; reflexivity.
Qed.

Lemma succ_eqb_false k : Nat.eqb (S k) k = false.
Proof. apply Nat.eqb_neq. lia. Qed.

(** A session that starts with the intro overlay [o] on display ends with
    the intro overlay it created on display, and no other. *)
Lemma live_session_events cfg world l p n o :
  Qgtb (PREP_DELAY cfg) 0 = true -> overlay l = Renderer o -> (o < n)%nat ->
  live_after [o] (session_events cfg world l p n) = [S (S (playback_id cfg n))].
Proof.
  intros D E Lt. unfold session_events, session_head. rewrite E.
  rewrite !live_after_app.
  change (live_after [o] [Print "Button pressed! You folks are in for a treat.";
                          RemoveEventDetect (CAMERA_BUTTON_PIN cfg);
                          RemoveEventDetect (EXIT_BUTTON_PIN cfg)]) with [o].
  rewrite (live_overlay_timed _ _ _ _ _ _ _ [o] D)
    by (intros [K|[]]; lia).
  cbn [remove_events live_after filter]. rewrite Nat.eqb_refl. cbn [negb].
  rewrite (still_cue_events _ []), live_countdown.
  cbn [live_after]. unfold playback_events. cbn [live_after app filter].
  rewrite Nat.eqb_refl. cbn [negb].
  rewrite (still_cue_events _ []).
  unfold done_events. cbn [live_after app filter].
  rewrite Nat.eqb_refl, succ_eqb_false. reflexivity.
Qed.

Lemma main_loop_overlays cfg world polls :
  Qgtb (PREP_DELAY cfg) 0 = true ->
  forall l s o,
    overlay l = Renderer o -> (o < next_overlay s)%nat ->
    exists o',
      live_after [o] (trace (main_loop cfg world polls l s)) = [o']
      /\ forall e, value (main_loop cfg world polls l s) = Ok e ->
                   overlay (locals_of e) = Renderer o'.
Proof.
  intros D. induction polls as [|p rest IH]; intros l s o E Lt.
  - exists o. split; [reflexivity|]. cbn [main_loop ret value]. intros e [= <-]. exact E.
  - rewrite main_loop_step.
    pose proof (still_poll_events cfg p) as SP.
    destruct (negb (is_none (confirmed (exit_event p) (exit_input p)))).
    { exists o. cbn [trace value]. split; [apply SP|]. intros e [= <-]. exact E. }
    destruct (session_starts cfg p).
    + pose proof (live_session_events cfg world l p (next_overlay s) o D E Lt) as LS.
      destruct (distribute_quiet p (COPY_IMAGES_TO cfg) [get_base_filename_for_images cfg p]
                  (session_state cfg s)) as (_ & _ & SD).
      unfold session_distribution.
      destruct (distribute p (COPY_IMAGES_TO cfg) _ (session_state cfg s))
        as [td sd [[]|x]]; cbn [trace value] in *.
      * destruct (TESTMODE_AUTOPRESS_BUTTON cfg) eqn:T.
        -- exists (S (S (playback_id cfg (next_overlay s)))). cbn [trace value].
           rewrite !live_after_app, SP, LS, SD, (still_session_tail cfg).
           split; [reflexivity|]. intros e [= <-]. reflexivity.
        -- destruct (IH (session_locals cfg l (next_overlay s)) (session_state cfg s)
                        (S (S (playback_id cfg (next_overlay s)))))
             as (o' & L' & V').
           { reflexivity. }
           { unfold session_state, playback_id, bump. cbn [next_overlay]. lia. }
           exists o'. cbn [prepend trace value].
           rewrite !live_after_app, SP, LS, SD, (still_session_tail cfg).
           split; [exact L' | exact V'].
      * exists (S (S (playback_id cfg (next_overlay s)))). cbn [trace value].
        rewrite !live_after_app, SP, LS, SD.
        split; [reflexivity | discriminate].
    + destruct (IH l s o E Lt) as (o' & L' & V').
      exists o'. cbn [prepend trace value].
      rewrite !live_after_app, SP. split; [exact L' | exact V'].
Qed.

(** C3 (as the code has it): with a prep delay above 0, however [main]
    stands or leaves its loop (exit-button return, test-mode break, a copy
    that raised, or still polling) exactly one overlay is on display and
    was not removed: the intro overlay that the variable [overlay] holds.
    Every other overlay, the finished overlay and the earlier intro
    overlays among them, was removed. *)
Theorem intro_overlay_left_on_display cfg world polls s :
  (0 < PREP_DELAY cfg)%Q ->
  exists o,
    displayed (trace (main cfg world polls s)) = [o]
    /\ forall e, value (main cfg world polls s) = Ok e ->
                 overlay (locals_of e) = Renderer o.
Proof.
  intros D. apply Qgtb_lt in D. rewrite main_run.
  destruct (check_folders_run ([SAVE_RAW_IMAGES_FOLDER cfg] ++ COPY_IMAGES_TO cfg) [] s)
    as (_ & N & _ & SH).
  fold (health_test_required_folders cfg) in N, SH.
  destruct (main_loop_overlays cfg world polls D (initial_locals s) (loop_entry_state cfg s)
              (next_overlay s)) as (o & L & V).
  { reflexivity. }
  { unfold loop_entry_state, bump. cbn [next_overlay]. rewrite N. lia. }
  exists o. cbn [prepend trace value]. split; [|exact V].
  unfold displayed, prologue_events. rewrite !live_after_app.
  change (live_after [] [Print "Welcome to the photo booth!";
                         Print ("(version " +++ version +++ ")"); Print "";
                         Print "Press the 'Take photo' button to take a photo";
                         Print "Use [Ctrl] + [\] to exit"; Print ""]) with (@nil nat).
  rewrite SH. unfold overlay_events. change (Qgtb 0 0) with false.
  cbn [live_after app]. exact L.
Qed.

Lemma intro_overlay_left_on_display_witness :
  exists o,
    displayed (trace (main booth_cfg sample_world [press; idle; exit_press] start)) = [o]
    /\ forall e, value (main booth_cfg sample_world [press; idle; exit_press] start) = Ok e ->
                 overlay (locals_of e) = Renderer o.
Proof.
  apply (intro_overlay_left_on_display booth_cfg sample_world [press; idle; exit_press] start).
  reflexivity.
Defined.

(** C3 as stated fails: when the exit button is held down in the first
    iteration [main] returns with the intro overlay still on display. *)
Lemma exit_leaves_intro_overlay :
  ~ overlays_removed_at_exit booth_cfg sample_world [exit_press] start.
Proof.
  intros H. specialize (H start_locals).
  assert (value (main booth_cfg sample_world [exit_press] start) = Ok (Returned start_locals))
    as V by (vm_compute; reflexivity).
  specialize (H (or_introl V)). vm_compute in H. discriminate H.
Qed.

(** * Further properties *)

(** ** Loading the configuration *)

(** X1: the required configuration is read key by key in a fixed order:
    the load fails exactly when the dict lacks one of the fourteen required
    keys, the key it reports is the first one missing in that order, and
    when it succeeds every value is the dict's entry for its key. *)
Theorem load_required_first_missing (V : Type) (CONFIG : string -> option V) :
  (forall key, load_required V CONFIG = inl key
               <-> first_missing CONFIG required_keys = Some key)
  /\ (forall r, load_required V CONFIG = inr r ->
                map CONFIG required_keys = map Some (required_values r))
  /\ (first_missing CONFIG required_keys = None ->
      exists r, load_required V CONFIG = inr r).
Proof.
  unfold load_required, first_missing, required_keys, required_values, subscript.
  cbn [find map].
  repeat match goal with
         | |- context [CONFIG ?k] =>
             destruct (CONFIG k); cbn [try_bind is_none];
             [| split; [intros key; split; intros [= <-]; reflexivity
                       | split; [intros r; discriminate | discriminate]]]
         end.
  split; [intros key; split; discriminate|].
  split; [intros r [= <-]; reflexivity | intros _; eexists; reflexivity].
Qed.

Example two_keys_missing :
  load_required Z dict_without_two = inl "PHOTO_W".
Proof. reflexivity. Qed.

(** ** The folders *)

Lemma existsb_eqb_In (x : string) (l : list string) :
  existsb (String.eqb x) l = true <-> In x l.
Proof.
  rewrite existsb_exists. split.
  - intros (y & H & E). apply String.eqb_eq in E. subst y. exact H.
  - intros H. exists x. split; [exact H | apply String.eqb_refl].
Qed.





Lemma append_cons a s1 s2 : String a s1 +++ s2 = String a (s1 +++ s2).
Proof. reflexivity. Qed.

Lemma append_empty s : "" +++ s = s.
Proof. reflexivity. Qed.

Lemma length_append s1 s2 :
  String.length (s1 +++ s2) = (String.length s1 + String.length s2)%nat.
Proof.
  induction s1 as [|a s1 IH]; [reflexivity|].
  rewrite append_cons. cbn [String.length]. rewrite IH. reflexivity.
Qed.

Lemma append_same_length s1 :
  forall s2 t1 t2,
    String.length s1 = String.length s2 -> s1 +++ t1 = s2 +++ t2 -> s1 = s2.
Proof.
  induction s1 as [|a s1 IH]; intros [|b s2] t1 t2 L E; try discriminate L.
  - reflexivity.
  - rewrite !append_cons in E. injection E as Ea E. subst b. injection L as L.
    f_equal. eapply IH; eassumption.
Qed.

Lemma append_cancel_r s1 s2 t : s1 +++ t = s2 +++ t -> s1 = s2.
Proof.
  intros E. apply (append_same_length s1 s2 t t); [|exact E].
  apply (f_equal String.length) in E. rewrite !length_append in E. lia.
Qed.

Lemma duplicate_notice_inj f g : duplicate_notice f = duplicate_notice g -> f = g.
Proof.
  unfold duplicate_notice. intros E.
  repeat (rewrite !append_cons in E; injection E as E).
  rewrite !append_empty in E. apply append_cancel_r in E. exact E.
Qed.

Lemma check_folders_notices folders_list f :
  forall folders_checked s,
    In (Print (duplicate_notice f)) (trace (check_folders folders_list folders_checked s))
    <-> exists a b, folders_list = a ++ f :: b /\ (In f folders_checked \/ In f a).
Proof.
  induction folders_list as [|folder rest IH]; intros folders_checked s.
  - cbn. split; [tauto|]. intros (a & b & E & _). destruct a; discriminate E.
  - rewrite check_folders_cons. cbn [prepend trace].
    set (fresh := negb (existsb (String.eqb folder) folders_checked)).
    set (fc := if fresh then folders_checked ++ [folder] else folders_checked).
    assert (forall g, In g fc <-> In g folders_checked \/ g = folder) as FC.
    { intros g. subst fc. destruct fresh eqn:F.
      - rewrite in_app_iff. cbn [In]. split; intros [H|H]; auto.
        + destruct H as [<- |[]]. auto.
      - subst fresh. apply negb_false_iff, existsb_eqb_In in F.
        split; [auto|]. intros [H| ->]; auto. }
    rewrite !in_app_iff, IH.
    split.
    + intros [[H|H]|(a & b & E & H)].
      * destruct fresh eqn:F; [destruct H|].
        destruct H as [H|[]].
        change (Print (duplicate_notice folder) = Print (duplicate_notice f)) in H.
        assert (duplicate_notice folder = duplicate_notice f) as K by congruence.
        apply duplicate_notice_inj in K. subst f.
        subst fresh. apply negb_false_iff, existsb_eqb_In in F.
        exists [], rest. split; [reflexivity | left; exact F].
      * exfalso. destruct (existsb (String.eqb folder) (folders s)); [destruct H|].
        destruct H as [H|[H|[]]]; [|discriminate H].
        injection H as H. discriminate H.
      * exists (folder :: a), b. split; [cbn [app]; rewrite E; reflexivity|].
        cbn [In]. rewrite FC in H. destruct H as [[H|H]|H]; auto.
    + intros (a & b & E & H). destruct a as [|x a]; cbn [app] in E;
        injection E as E1 E2; subst.
      * left. left. destruct H as [H|[]].
        replace fresh with false; [left; reflexivity|].
        subst fresh. symmetry. apply negb_false_iff, existsb_eqb_In. exact H.
      * right. exists a, b. split; [reflexivity|]. rewrite FC.
        destruct H as [H|[H|H]]; auto.
Qed.

(** X4: [health_test_required_folders] prints the duplicate error line for
    a folder exactly when the folder is listed a second time, that is when
    it occurs again after an earlier occurrence in the list made of the
    raw-image folder followed by the copy destinations; a list without
    repeats prints no such line. *)
Theorem health_test_duplicate_notice cfg s f :
  In (Print (duplicate_notice f)) (trace (health_test_required_folders cfg s))
  <-> exists a b, SAVE_RAW_IMAGES_FOLDER cfg :: COPY_IMAGES_TO cfg = a ++ f :: b /\ In f a.
Proof.
  unfold health_test_required_folders. rewrite check_folders_notices.
  split; intros (a & b & E & H); exists a, b; (split; [exact E|]).
  - destruct H as [[]|H]. exact H.
  - right. exact H.
Qed.

Example duplicate_destination :
  trace (health_test_required_folders
           {| REAL_PATH := "/home/pi/booth"; CAMERA_BUTTON_PIN := 21; EXIT_BUTTON_PIN := 13;
              TOTAL_PICS := 1; PREP_DELAY := 2; COUNTDOWN := 3; PHOTO_W := 1920;
              PHOTO_H := 1152; SCREEN_W := 800; SCREEN_H := 480; CAMERA_ROTATION := 0;
              CAMERA_HFLIP := true; DEBOUNCE_TIME := 0.05;
              TESTMODE_AUTOPRESS_BUTTON := false; SAVE_RAW_IMAGES_FOLDER := "photos";
              COPY_IMAGES_TO := ["usb"; "usb"] |} start)
  = [Print "Creating folder: photos"; Makedirs "photos";
     Print "Creating folder: usb"; Makedirs "usb";
     Print "ERROR: Cannot use same folder path (usb) twice. Refer config file."].
Proof. reflexivity. Qed.

(** ** File names *)

Lemma split_head_prefix t u :
  (forall c, In c (chars t) -> c <> "."%char) ->
  split_head "." (t +++ "." +++ u) = t /\ split_head "." t = t.
Proof.
  induction t as [|a t IH]; intros H.
  - split; reflexivity.
  - rewrite append_cons. cbn [split_head].
    assert (Ascii.eqb a "." = false) as E
        by (apply Ascii.eqb_neq, H; left; reflexivity).
    rewrite E. destruct IH as [-> ->]; [|split; reflexivity].
    intros c K. apply H. right. exact K.
Qed.

(** X5: the file name of a session keeps the clock reading only up to its
    first dot: two readings with the same part before the fraction of a
    second, or a reading with no fraction at all, give the same file name,
    so that two sessions started within one second write the same file. *)
Theorem filename_same_within_second cfg p1 p2 t u1 u2 :
  (forall c, In c (chars t) -> c <> "."%char) ->
  now p1 = t +++ "." +++ u1 ->
  now p2 = t +++ "." +++ u2 \/ now p2 = t ->
  get_base_filename_for_images cfg p1 = get_base_filename_for_images cfg p2.
Proof.
  intros H E1 E2. unfold get_base_filename_for_images. rewrite E1.
  destruct (split_head_prefix t u1 H) as [-> _].
  destruct E2 as [-> | ->].
  - destruct (split_head_prefix t u2 H) as [-> _]. reflexivity.
  - destruct (split_head_prefix t u2 H) as [_ ->]. reflexivity.
Qed.

Lemma filename_same_within_second_witness :
  get_base_filename_for_images booth_cfg press
  = get_base_filename_for_images booth_cfg press_later.
Proof.
  apply (filename_same_within_second booth_cfg press press_later
           "2017-12-31 23:59:59" "123456" "999999").
  - intros c H. cbn in H.
    repeat (destruct H as [<- | H]; [discriminate|]). destruct H.
  - reflexivity.
  - left. reflexivity.
Defined.

Lemma base_filename_chars s :
  forall c, In c (chars (replace ":" "-" (replace " " "_" (split_head "." s)))) ->
            c <> " "%char /\ c <> ":"%char /\ c <> "."%char.
Proof.
  induction s as [|a s IH]; intros c H; [destruct H|].
  cbn [split_head] in H. destruct (Ascii.eqb_spec a ".") as [->|Nd]; [destruct H|].
  cbn [replace chars list_ascii_of_string In] in H. destruct H as [<- | H].
  - destruct (Ascii.eqb_spec a " ") as [->|Ns].
    + repeat split; discriminate.
    + destruct (Ascii.eqb_spec a ":") as [->|Nc].
      * repeat split; discriminate.
      * repeat split; assumption.
  - apply IH. exact H.
Qed.

Lemma length_replace a b s : String.length (replace a b s) = String.length s.
Proof. induction s as [|x s IH]; [reflexivity|]. cbn. rewrite IH. reflexivity. Qed.

Lemma length_split_head c s : (String.length (split_head c s) <= String.length s)%nat.
Proof.
  induction s as [|x s IH]; [apply Nat.le_refl|].
  cbn [split_head]. destruct (Ascii.eqb x c); cbn [String.length]; lia.
Qed.

(** X6: the file name of a session is the program's directory, the
    raw-image folder and a base name with the extension .jpg; the base name
    has no space, no colon and no dot, and is no longer than the clock
    reading it is made from. *)
Theorem filename_shape cfg p :
  exists base,
    get_base_filename_for_images cfg p
    = REAL_PATH cfg +++ "/" +++ SAVE_RAW_IMAGES_FOLDER cfg +++ "/" +++ base +++ ".jpg"
    /\ (forall c, In c (chars base) -> c <> " "%char /\ c <> ":"%char /\ c <> "."%char)
    /\ (String.length base <= String.length (now p))%nat.
Proof.
  exists (replace ":" "-" (replace " " "_" (split_head "." (now p)))).
  split; [reflexivity|]. split; [apply base_filename_chars|].
  rewrite !length_replace. apply length_split_head.
Qed.

(** ** Resizing and padding *)

(** X7: the image [overlay_image] hands to the renderer is never wider
    than the screen: an image no wider than [SCREEN_W] keeps its size, a
    wider one gets the width [SCREEN_W] and the height of the resize step;
    the canvas is less than 32 columns wider than the screen. *)
Theorem overlay_never_wider_than_screen cfg world image_path duration layer m s :
  let w := fst (image_size world image_path) in
  let h := snd (image_size world image_path) in
  exists pad sz,
    hd_error (trace (overlay_image cfg world image_path duration layer m s))
      = Some (AddOverlay (next_overlay s) pad sz)
    /\ fst sz <= SCREEN_W cfg
    /\ fst (canvas_size pad) < SCREEN_W cfg + 32
    /\ (w <= SCREEN_W cfg -> sz = (w, h))
    /\ (SCREEN_W cfg < w ->
        sz = (SCREEN_W cfg, resize_height world (SCREEN_W cfg) w h)).
Proof.
  cbv zeta. rewrite overlay_image_run.
  exists (padded m (loaded_image cfg world image_path)),
         (size (loaded_image cfg world image_path)).
  split; [reflexivity|].
  unfold loaded_image, padded, Image_open, Image_resize, Image_new, paste.
  cbn [size fst snd canvas_size].
  destruct (image_size world image_path) as [w h]. cbn [fst snd].
  destruct (Z.gtb_spec w (SCREEN_W cfg)) as [G|G]; cbn [size fst snd].
  - pose proof (Z.div_mod (SCREEN_W cfg + 31) 32 ltac:(lia)).
    pose proof (Z.mod_pos_bound (SCREEN_W cfg + 31) 32 ltac:(lia)).
    split; [lia|]. split; [lia|]. split; [lia | reflexivity].
  - pose proof (Z.div_mod (w + 31) 32 ltac:(lia)).
    pose proof (Z.mod_pos_bound (w + 31) 32 ltac:(lia)).
    split; [lia|]. split; [lia|]. split; [reflexivity | lia].
Qed.

(** X8: padding adds less than one block: the canvas is at most 31
    columns wider and 15 rows taller than the image, and an image whose
    width is a multiple of 32 (whose height is a multiple of 16) gets a
    canvas of that same width (height). *)
Theorem padding_less_than_a_block (m : string) (img : image) :
  let w := fst (size img) in
  let h := snd (size img) in
  let W := fst (canvas_size (padded m img)) in
  let H := snd (canvas_size (padded m img)) in
  w <= W <= w + 31 /\ h <= H <= h + 15
  /\ (w mod 32 = 0 -> W = w) /\ (h mod 16 = 0 -> H = h).
Proof.
  intros w h W H. subst W H. unfold padded, Image_new, paste. cbn [canvas_size fst snd].
  fold w h.
  pose proof (Z.div_mod (w + 31) 32 ltac:(lia)).
  pose proof (Z.mod_pos_bound (w + 31) 32 ltac:(lia)).
  pose proof (Z.div_mod (h + 15) 16 ltac:(lia)).
  pose proof (Z.mod_pos_bound (h + 15) 16 ltac:(lia)).
  split; [lia|]. split; [lia|]. split.
  - intros E. destruct (round_up_least 32 w ltac:(lia)) as (_ & A & B).
    specialize (B w E ltac:(lia)). lia.
  - intros E. destruct (round_up_least 16 h ltac:(lia)) as (_ & A & B).
    specialize (B h E ltac:(lia)). lia.
Qed.

(** ** Showing and removing overlays *)

Lemma removals_app t1 t2 : removals (t1 ++ t2) = removals t1 ++ removals t2.
Proof. apply flat_map_app. Qed.

Lemma shown_images_app t1 t2 :
  shown_images (t1 ++ t2) = shown_images t1 ++ shown_images t2.
Proof. apply flat_map_app. Qed.

(** X9: showing an overlay and passing the handle that [overlay_image]
    returns to [remove_overlay] removes the overlay exactly once and leaves
    the display as it was, whatever the duration: with a duration above 0
    the overlay removes itself and the later [remove_overlay(-1)] makes no
    second removal. *)
Theorem show_then_remove cfg world image_path duration layer m s shown :
  ~ In (next_overlay s) shown ->
  let r := (h <- overlay_image cfg world image_path duration layer m ;;
            remove_overlay h) s in
  value r = Ok tt
  /\ removals (trace r) = [next_overlay s]
  /\ live_after shown (trace r) = shown.
Proof.
  intros H r. subst r.
  rewrite (bind_ok _ _ _ _ _ _ (overlay_image_run cfg world image_path duration layer m s)).
  rewrite remove_overlay_run, prepend_out. cbn [trace value].
  unfold overlay_events.
  destruct (Qgtb duration 0); cbn [remove_events app removals flat_map live_after];
    rewrite filter_app, (filter_other _ _ H); cbn [filter];
    rewrite Nat.eqb_refl; cbn [negb]; rewrite app_nil_r; auto.
Qed.

Lemma show_then_remove_witness :
  removals (trace ((h <- overlay_image booth_cfg sample_world "intro.png" 0 3 "RGB" ;;
                    remove_overlay h) ready)) = [1%nat]
  /\ removals (trace ((h <- overlay_image booth_cfg sample_world "intro.png" 2 3 "RGB" ;;
                       remove_overlay h) ready)) = [1%nat].
Proof.
  split.
  - apply (show_then_remove booth_cfg sample_world "intro.png" 0 3 "RGB" ready [0%nat]).
    intros [K | []]. discriminate K.
  - apply (show_then_remove booth_cfg sample_world "intro.png" 2 3 "RGB" ready [0%nat]).
    intros [K | []]. discriminate K.
Defined.

Lemma live_countdown_fresh cfg world counters :
  forall n shown,
    (forall x, In x shown -> (x < n)%nat) ->
    live_after shown (countdown_events cfg world n counters) = shown.
Proof.
  induction counters as [|c rest IH]; intros n shown H; cbn [countdown_events];
    [reflexivity|].
  rewrite live_after_app, live_overlay_timed.
  - apply IH. intros x K. specialize (H x K). lia.
  - reflexivity.
  - intros K. specialize (H n K). lia.
Qed.

Lemma removals_cue_events clip : removals (cue_events clip) = [].
Proof. destruct clip; reflexivity. Qed.

Lemma removals_countdown cfg world counters :
  forall n, removals (countdown_events cfg world n counters) = seq n (length counters).
Proof.
  induction counters as [|c rest IH]; intros n; cbn [countdown_events]; [reflexivity|].
  rewrite removals_app, IH. reflexivity.
Qed.

Lemma removals_copy_loop p dest srcs s :
  removals (trace (for_each srcs (fun src => print (src +++ " -> " +++ dest) ;;
                                            copy2 p src dest) s)) = [].
Proof.
  induction srcs as [|src srcs IH]; cbn [for_each]; [reflexivity|].
  pose proof (copy_step_run p src dest s) as R.
  destruct (copy_ok p src dest).
  - rewrite (bind_ok _ _ _ _ _ _ R). cbn [prepend trace].
    rewrite removals_app, IH. reflexivity.
  - rewrite (bind_raised _ _ _ _ _ _ R). reflexivity.
Qed.

Lemma removals_distribute p dests srcs s :
  removals (trace (distribute p dests srcs s)) = [].
Proof.
  unfold distribute. induction dests as [|dest dests IH]; cbn [for_each]; [reflexivity|].
  pose proof (removals_copy_loop p dest srcs s) as A.
  destruct (copy_loop_run p dest srcs s) as (D & _ & _).
  destruct (for_each srcs _ s) as [t s1 [[]|e]] eqn:R; cbn [trace final] in *; subst s1.
  - rewrite (bind_ok _ _ _ _ _ _ R). cbn [prepend trace].
    rewrite removals_app, A, IH. reflexivity.
  - rewrite (bind_raised _ _ _ _ _ _ R). exact A.
Qed.

Lemma removals_session_tail cfg : removals (session_tail cfg) = [].
Proof. unfold session_tail. destruct (TESTMODE_AUTOPRESS_BUTTON cfg); reflexivity. Qed.

(** What a session removes: the prep overlay when it has a duration, the
    intro overlay it found, the countdown overlays, the playback overlay
    and the finished overlay. *)
Lemma removals_session cfg world l p s :
  removals (trace (session cfg world l p s))
  = (if Qgtb (PREP_DELAY cfg) 0 then [next_overlay s] else [])
    ++ removals (remove_events (overlay l))
    ++ seq (S (next_overlay s)) (length (range_down (COUNTDOWN cfg)))
    ++ [playback_id cfg (next_overlay s); S (playback_id cfg (next_overlay s))].
Proof.
  assert (removals (trace (session cfg world l p s))
          = removals (session_events cfg world l p (next_overlay s))) as ->.
  { rewrite session_run.
    pose proof (removals_distribute p (COPY_IMAGES_TO cfg)
                  [get_base_filename_for_images cfg p] (session_state cfg s)) as RD.
    destruct (distribute p (COPY_IMAGES_TO cfg) _ (session_state cfg s))
      as [td sd [[]|e]]; cbn [trace value] in *;
      rewrite !removals_app, RD, ?removals_session_tail, ?app_nil_r; reflexivity. }
  unfold session_events, session_head, playback_events, done_events, overlay_events.
  rewrite !removals_app, !removals_cue_events, removals_countdown.
  destruct (Qgtb (PREP_DELAY cfg) 0); cbn [removals flat_map app];
    rewrite ?app_nil_r, <- ?app_assoc; reflexivity.
Qed.

(** X10: with a prep delay that is not above 0 the "get ready" overlay is
    created with no duration and [prep_for_photo_screen] drops its handle:
    no call removes it, and after the session it is still on display,
    beside the new intro overlay. *)
Theorem prep_overlay_left_without_delay cfg world l p s o :
  ~ (0 < PREP_DELAY cfg)%Q ->
  overlay l = Renderer o -> (o < next_overlay s)%nat ->
  live_after [o] (trace (session cfg world l p s))
  = [next_overlay s; S (S (playback_id cfg (next_overlay s)))]
  /\ ~ In (next_overlay s) (removals (trace (session cfg world l p s))).
Proof.
  intros D E Lt.
  assert (Qgtb (PREP_DELAY cfg) 0 = false) as D'
      by (destruct (Qgtb (PREP_DELAY cfg) 0) eqn:K; [apply Qgtb_lt in K; tauto | reflexivity]).
  split.
  - set (n := next_overlay s) in *.
    assert (live_after [o] (session_events cfg world l p n)
            = [n; S (S (playback_id cfg n))]) as LS.
    { unfold session_events, session_head. rewrite E.
      rewrite !live_after_app. unfold overlay_events at 1. rewrite D'.
      cbn [app live_after remove_events filter].
      rewrite Nat.eqb_refl. cbn [negb].
      replace (Nat.eqb n o) with false by (symmetry; apply Nat.eqb_neq; lia).
      cbn [negb]. rewrite (still_cue_events _ [n]).
      rewrite live_countdown_fresh by (intros x [<- | []]; lia).
      unfold playback_events, playback_id. cbn [live_after app filter].
      rewrite Nat.eqb_refl.
      replace (Nat.eqb n (length (range_down (COUNTDOWN cfg)) + S n)) with false
        by (symmetry; apply Nat.eqb_neq; lia).
      cbn [negb]. rewrite (still_cue_events _ [n]).
      unfold done_events. cbn [live_after app filter].
      rewrite Nat.eqb_refl, succ_eqb_false.
      replace (Nat.eqb n (S (length (range_down (COUNTDOWN cfg)) + S n))) with false
        by (symmetry; apply Nat.eqb_neq; lia).
      reflexivity. }
    destruct (distribute_quiet p (COPY_IMAGES_TO cfg) [get_base_filename_for_images cfg p]
                (session_state cfg s)) as (_ & _ & SD).
    rewrite session_run. fold n.
    destruct (value (distribute p (COPY_IMAGES_TO cfg) _ (session_state cfg s)));
      cbn [trace]; rewrite !live_after_app, LS, SD, ?(still_session_tail cfg); reflexivity.
  - rewrite removals_session, D', E. unfold playback_id.
    cbn [app remove_events removals flat_map In].
    rewrite in_app_iff, in_seq. cbn [In]. lia.
Qed.

Lemma prep_overlay_left_without_delay_witness :
  live_after [0%nat] (trace (session no_prep_cfg sample_world start_locals press ready))
  = [1%nat; 7%nat].
Proof.
  apply (prep_overlay_left_without_delay no_prep_cfg sample_world start_locals press ready 0).
  - intros K. discriminate K.
  - reflexivity.
  - cbn. lia.
Defined.

(** ** The countdown and the capture *)

Lemma range_down_pos n : 0 < n -> range_down n = n :: range_down (n - 1).
Proof.
  intros H. unfold range_down.
  replace (Z.to_nat n) with (S (Z.to_nat (n - 1))) by lia.
  cbn [seq map]. f_equal; [lia|].
  rewrite <- seq_shift, map_map. apply map_ext. intros i. lia.
Qed.

Lemma range_down_nonpos n : n <= 0 -> range_down n = [].
Proof.
  intros H. unfold range_down. replace (Z.to_nat n) with 0%nat by lia. reflexivity.
Qed.

Lemma length_range_down n : length (range_down n) = Z.to_nat n.
Proof. unfold range_down. rewrite length_map, length_seq. reflexivity. Qed.

Lemma shown_images_countdown cfg world counters :
  forall n, shown_images (countdown_events cfg world n counters)
            = map (wait_image cfg) counters.
Proof.
  induction counters as [|c rest IH]; intros n; cbn [countdown_events map]; [reflexivity|].
  rewrite shown_images_app, IH. unfold overlay_events.
  cbn [shown_images flat_map app padded paste Image_new pasted map fst].
  rewrite source_loaded_image. reflexivity.
Qed.

(** X11: [taking_photo] shows the images wait-COUNTDOWN, ..., wait-1 in
    that order, one second each and each removed before the next, then
    captures once with nothing of the countdown left on display, and
    returns the file name; it uses [COUNTDOWN] overlays, and with a
    countdown of 0 or less it shows nothing and captures at once. *)
Theorem taking_photo_countdown cfg world photo_number filename s :
  let r := taking_photo cfg world photo_number filename s in
  let counters := range_down (COUNTDOWN cfg) in
  value r = Ok filename
  /\ (exists before after,
        trace r = before ++ Capture filename :: after
        /\ shown_images before = map (wait_image cfg) counters
        /\ removals before = seq (next_overlay s) (Z.to_nat (COUNTDOWN cfg))
        /\ live_after [] before = []
        /\ captures before = [] /\ captures after = []
        /\ shown_images after = [])
  /\ next_overlay (final r) = (Z.to_nat (COUNTDOWN cfg) + next_overlay s)%nat
  /\ (0 < COUNTDOWN cfg -> counters = COUNTDOWN cfg :: range_down (COUNTDOWN cfg - 1))
  /\ (COUNTDOWN cfg <= 0 ->
      trace r = [MusicLoad SOUND_CAMERA; MusicPlay; AnnotateText ""; Capture filename;
                 Print ("Photo (" +++ str photo_number +++ ") saved: " +++ filename)]).
Proof.
  intros r counters. subst r. rewrite taking_photo_run. cbn [trace final value].
  fold counters.
  split; [reflexivity|]. split; [|split; [|split]].
  - exists (countdown_events cfg world (next_overlay s) counters
            ++ [MusicLoad SOUND_CAMERA; MusicPlay; AnnotateText ""]),
           [Print ("Photo (" +++ str photo_number +++ ") saved: " +++ filename)].
    destruct (unseen_countdown_events cfg world counters (next_overlay s)) as (A & _ & _).
    rewrite <- app_assoc. split; [reflexivity|].
    rewrite shown_images_app, removals_app, live_after_app, captures_app.
    rewrite shown_images_countdown, removals_countdown, live_countdown, A.
    subst counters. rewrite length_range_down.
    cbn [shown_images removals flat_map app live_after captures].
    rewrite !app_nil_r. repeat split.
  - subst counters. rewrite length_range_down. reflexivity.
  - apply range_down_pos.
  - intros H. subst counters. rewrite (range_down_nonpos _ H). reflexivity.
Qed.

Example countdown_of_three :
  shown_images (trace (taking_photo booth_cfg sample_world 1 "photo.jpg" ready))
  = ["/home/pi/booth/assets/wait-3.png"; "/home/pi/booth/assets/wait-2.png";
     "/home/pi/booth/assets/wait-1.png"].
Proof. reflexivity. Qed.

(** ** The time a session takes *)

Lemma slept_app t1 t2 : (slept (t1 ++ t2) == slept t1 + slept t2)%Q.
Proof.
  induction t1 as [|e t1 IH]; cbn [app slept].
  - ring.
  - destruct e; try exact IH. rewrite IH. ring.
Qed.

Lemma slept_countdown cfg world counters :
  forall n, (slept (countdown_events cfg world n counters)
             == inject_Z (Z.of_nat (length counters)))%Q.
Proof.
  induction counters as [|c rest IH]; intros n; cbn [countdown_events length].
  - reflexivity.
  - rewrite slept_app, IH. unfold overlay_events.
    change (Qgtb 1 0) with true. cbn [app slept].
    rewrite Nat2Z.inj_succ, <- Z.add_1_l, inject_Z_plus. ring.
Qed.

Lemma slept_cue_events clip : slept (cue_events clip) = 0%Q.
Proof. destruct clip; reflexivity. Qed.

Lemma slept_copy_loop p dest srcs s :
  slept (trace (for_each srcs (fun src => print (src +++ " -> " +++ dest) ;;
                                         copy2 p src dest) s)) = 0%Q.
Proof.
  induction srcs as [|src srcs IH]; cbn [for_each]; [reflexivity|].
  pose proof (copy_step_run p src dest s) as R.
  destruct (copy_ok p src dest).
  - rewrite (bind_ok _ _ _ _ _ _ R). cbn [prepend trace app slept]. exact IH.
  - rewrite (bind_raised _ _ _ _ _ _ R). reflexivity.
Qed.

Lemma slept_distribute p dests srcs s :
  (slept (trace (distribute p dests srcs s)) == 0)%Q.
Proof.
  unfold distribute. induction dests as [|dest dests IH]; cbn [for_each]; [reflexivity|].
  pose proof (slept_copy_loop p dest srcs s) as A.
  destruct (copy_loop_run p dest srcs s) as (D & _ & _).
  destruct (for_each srcs _ s) as [t s1 [[]|e]] eqn:R; cbn [trace final] in *; subst s1.
  - rewrite (bind_ok _ _ _ _ _ _ R). cbn [prepend trace].
    rewrite slept_app, A, IH. ring.
  - rewrite (bind_raised _ _ _ _ _ _ R). cbn [trace]. rewrite A. reflexivity.
Qed.

(** X12: the time a session sleeps is the prep delay (when it is above
    0), one second per countdown step, two seconds of playback and two
    seconds of the finished screen; the distribution adds no sleep, and the
    sum is the same when a copy fails. *)
Theorem session_sleep_time cfg world l p s :
  (slept (trace (session cfg world l p s))
   == (if Qgtb (PREP_DELAY cfg) 0 then PREP_DELAY cfg else 0)
      + inject_Z (Z.max 0 (COUNTDOWN cfg)) + 4)%Q.
Proof.
  assert (slept (trace (session cfg world l p s))
          == slept (session_events cfg world l p (next_overlay s)))%Q as ->.
  { rewrite session_run.
    pose proof (slept_distribute p (COPY_IMAGES_TO cfg)
                  [get_base_filename_for_images cfg p] (session_state cfg s)) as SD.
    destruct (distribute p (COPY_IMAGES_TO cfg) _ (session_state cfg s))
      as [td sd [[]|e]]; cbn [trace value] in *; rewrite !slept_app, SD.
    - unfold session_tail. destruct (TESTMODE_AUTOPRESS_BUTTON cfg); cbn [slept]; ring.
    - ring. }
  unfold session_events, session_head, playback_events, done_events.
  rewrite !slept_app, slept_countdown, !slept_cue_events, length_range_down.
  replace (Z.of_nat (Z.to_nat (COUNTDOWN cfg))) with (Z.max 0 (COUNTDOWN cfg)) by lia.
  unfold overlay_events. rewrite slept_app.
  assert (slept (remove_events (overlay l)) = 0%Q) as -> by (destruct (overlay l); reflexivity).
  destruct (Qgtb (PREP_DELAY cfg) 0); cbn [slept]; ring.
Qed.

Example sample_session_sleeps_nine_seconds :
  (slept (trace (session booth_cfg sample_world start_locals press ready)) == 9)%Q.
Proof. reflexivity. Qed.

(** ** Runs of the loop *)

(** X13: with the test flag off, while neither press is confirmed (no
    edge, or an edge with the pin back at 1) the loop does nothing but
    check the two buttons and sleep 0.1 seconds per iteration: it goes on
    polling with its state, its counter and its overlay unchanged. *)
Theorem idle_loop_only_polls cfg world polls l s :
  TESTMODE_AUTOPRESS_BUTTON cfg = false ->
  (forall p, In p polls ->
     confirmed (cam_event p) (cam_input p) = None
     /\ confirmed (exit_event p) (exit_input p) = None) ->
  main_loop cfg world polls l s
  = Out (flat_map (fun p => poll_events cfg p ++ [Sleep 0.1]) polls) s (Ok (Polling l)).
Proof.
  intros T. induction polls as [|p rest IH]; intros H; [reflexivity|].
  destruct (H p (or_introl eq_refl)) as [C E].
  rewrite main_loop_step, E. unfold session_starts. rewrite T, C. cbn [is_none negb orb].
  rewrite IH by (intros q K; apply H; right; exact K).
  rewrite prepend_out. reflexivity.
Qed.

Lemma idle_loop_only_polls_witness :
  main_loop booth_cfg sample_world [idle; bounce] start_locals ready
  = Out [EventDetected 21 false; EventDetected 13 false; Sleep 0.1;
         EventDetected 21 true; Sleep 0.05; GpioInput 21 1; EventDetected 13 false;
         Sleep 0.1]
        ready (Ok (Polling start_locals)).
Proof.
  apply (idle_loop_only_polls booth_cfg sample_world [idle; bounce] start_locals ready).
  - reflexivity.
  - intros p [<- | [<- | []]]; split; reflexivity.
Defined.

Lemma distribute_value_ok p l :
  distribute_value p l = Ok tt <-> first_failure p l = None.
Proof.
  unfold distribute_value. destruct (first_failure p l) as [[a b]|];
    split; intros H; try reflexivity; discriminate H.
Qed.

Lemma main_loop_sessions cfg world polls :
  forall l s,
    captures (trace (main_loop cfg world polls l s))
    = map (get_base_filename_for_images cfg) (session_polls cfg polls)
    /\ copies (trace (main_loop cfg world polls l s))
       = flat_map (fun p => attempts p (todo cfg p)) (session_polls cfg polls)
    /\ sounds (trace (main_loop cfg world polls l s))
       = flat_map session_sounds
           (map (fun i => taken_photo l + Z.of_nat i)
                (seq 0 (length (session_polls cfg polls)))).
Proof.
  induction polls as [|p rest IH]; intros l s; [repeat split|].
  rewrite main_loop_step. cbn [session_polls].
  destruct (unseen_poll_events cfg p) as (PA & PB & PC).
  destruct (negb (is_none (confirmed (exit_event p) (exit_input p)))).
  { cbn [trace]. rewrite PA, PB, PC. repeat split. }
  destruct (session_starts cfg p).
  - destruct (session_events_shows cfg world l p (next_overlay s)) as (SA & SB & SC).
    destruct (session_tail_unseen cfg) as (TA & TB & TC).
    unfold session_distribution.
    destruct (distribute_run p (COPY_IMAGES_TO cfg) [get_base_filename_for_images cfg p]
                (session_state cfg s)) as (_ & DB & DV).
    destruct (distribute_quiet p (COPY_IMAGES_TO cfg) [get_base_filename_for_images cfg p]
                (session_state cfg s)) as (DA & DC & _).
    rewrite pairs_single in DB, DV. fold (todo cfg p) in DB, DV.
    destruct (distribute p (COPY_IMAGES_TO cfg) _ (session_state cfg s)) as [td sd vd].
    cbn [trace value] in *.
    destruct vd as [[]|e].
    + symmetry in DV. apply distribute_value_ok in DV. rewrite DV. cbn [is_none].
      destruct (TESTMODE_AUTOPRESS_BUTTON cfg) eqn:T.
      * cbn [trace]. rewrite !captures_app, !copies_app, !sounds_app.
        rewrite PA, PB, PC, SA, SB, SC, DA, DB, DC, TA, TB, TC.
        cbn [map flat_map app length seq]. rewrite ?app_nil_r, Z.add_0_r.
        repeat split.
      * destruct (IH (session_locals cfg l (next_overlay s)) (session_state cfg s))
          as (IA & IB & IC).
        cbn [prepend trace]. rewrite !captures_app, !copies_app, !sounds_app.
        rewrite PA, PB, PC, SA, SB, SC, DA, DB, DC, TA, TB, TC, IA, IB, IC.
        cbn [map flat_map app length seq session_locals taken_photo].
        rewrite ?app_nil_r, Z.add_0_r, T.
        split; [reflexivity|]. split; [reflexivity|].
        f_equal. rewrite <- seq_shift, !map_map. f_equal.
        apply map_ext. intros i. lia.
    + assert (first_failure p (todo cfg p) <> None) as F.
      { intros K. apply distribute_value_ok in K. congruence. }
      destruct (first_failure p (todo cfg p)); [|contradiction]. cbn [is_none].
      cbn [trace]. rewrite !captures_app, !copies_app, !sounds_app.
      rewrite PA, PB, PC, SA, SB, SC, DA, DB, DC.
      destruct (TESTMODE_AUTOPRESS_BUTTON cfg);
        cbn [map flat_map app length seq]; rewrite ?app_nil_r, Z.add_0_r; repeat split.
  - destruct (IH l s) as (IA & IB & IC).
    cbn [prepend trace]. rewrite !captures_app, !copies_app, !sounds_app.
    rewrite PA, PB, PC, IA, IB, IC. repeat split.
Qed.

Lemma prologue_unseen cfg world s : unseen (prologue_events cfg world s).
Proof.
  unfold prologue_events.
  destruct (check_folders_run ([SAVE_RAW_IMAGES_FOLDER cfg] ++ COPY_IMAGES_TO cfg) [] s)
    as (_ & _ & U & _).
  fold (health_test_required_folders cfg) in U.
  apply (unseen_app [_; _; _; _; _; _]); [repeat split|].
  apply unseen_app; [exact U|].
  apply (unseen_app [_]); [repeat split|].
  apply unseen_app; [apply unseen_overlay_events | repeat split].
Qed.

(** X14: a run of [main] captures one photo per session, named after the
    clock of the iteration that started it, and tries the copies of each
    session up to its first failure; sessions start at the polls where the
    capture press is confirmed (at every poll in test mode), and none
    starts after a confirmed exit press, after a session in test mode or
    after a session in which a copy failed. *)
Theorem run_captures_and_copies cfg world polls s :
  captures (trace (main cfg world polls s))
  = map (get_base_filename_for_images cfg) (session_polls cfg polls)
  /\ copies (trace (main cfg world polls s))
     = flat_map (fun p => attempts p (todo cfg p)) (session_polls cfg polls).
Proof.
  rewrite main_run. cbn [prepend trace].
  destruct (prologue_unseen cfg world s) as (A & B & _).
  destruct (main_loop_sessions cfg world polls (initial_locals s) (loop_entry_state cfg s))
    as (IA & IB & _).
  rewrite captures_app, copies_app, A, B, IA, IB. split; reflexivity.
Qed.

(** X15: in a run of [main] the session number i (from 0) plays the cues
    of the counter 3 + i: the countdown clip of [(3 + i) % 10] if there is
    one, the shutter clip, then the done clip of [(3 + i) % 7]; nothing
    else is played. *)
Theorem run_sounds cfg world polls s :
  sounds (trace (main cfg world polls s))
  = flat_map session_sounds
      (map (fun i => 3 + Z.of_nat i) (seq 0 (length (session_polls cfg polls)))).
Proof.
  rewrite main_run. cbn [prepend trace].
  destruct (prologue_unseen cfg world s) as (_ & _ & C).
  destruct (main_loop_sessions cfg world polls (initial_locals s) (loop_entry_state cfg s))
    as (_ & _ & IC).
  rewrite sounds_app, C, IC. reflexivity.
Qed.

Example three_sessions_then_exit :
  session_polls booth_cfg [press; idle; press; bounce; press_later; exit_press; press]
  = [press; press; press_later]
  /\ sounds (trace (main booth_cfg sample_world
                      [press; idle; press; bounce; press_later; exit_press; press] start))
     = [SOUND_COUNTDOWN_3; SOUND_CAMERA; SOUND_DONE_3;
        SOUND_CAMERA; SOUND_DONE_4;
        SOUND_CAMERA; SOUND_DONE_5].
Proof. split; reflexivity. Qed.

(** ** Edge detection *)

Lemma arming_app t1 t2 :
  forall armed,
    arming armed (t1 ++ t2)
    = match arming armed t1 with
      | Some armed' => arming armed' t2
      | None => None
      end.
Proof.
  induction t1 as [|e t1 IH]; intros armed; [reflexivity|].
  destruct e; cbn [app arming]; try apply IH;
    destruct (existsb _ armed); try reflexivity; apply IH.
Qed.

Lemma arm_neutral_app t1 t2 : arm_neutral t1 -> arm_neutral t2 -> arm_neutral (t1 ++ t2).
Proof. intros A B armed. rewrite arming_app, A. apply B. Qed.

Lemma arm_neutral_overlay_events cfg world n image_path duration layer m :
  arm_neutral (overlay_events cfg world n image_path duration layer m).
Proof. unfold overlay_events. destruct (Qgtb duration 0); intros armed; reflexivity. Qed.

Lemma arm_neutral_countdown cfg world counters :
  forall n, arm_neutral (countdown_events cfg world n counters).
Proof.
  induction counters as [|c rest IH]; intros n; cbn [countdown_events].
  - intros armed. reflexivity.
  - apply arm_neutral_app; [apply arm_neutral_overlay_events | apply IH].
Qed.

Lemma arm_neutral_remove_events h : arm_neutral (remove_events h).
Proof. destruct h; intros armed; reflexivity. Qed.

Lemma arm_neutral_cue_events clip : arm_neutral (cue_events clip).
Proof. destruct clip; intros armed; reflexivity. Qed.

Lemma arm_neutral_copy_loop p dest srcs s :
  arm_neutral (trace (for_each srcs (fun src => print (src +++ " -> " +++ dest) ;;
                                               copy2 p src dest) s)).
Proof.
  induction srcs as [|src srcs IH]; cbn [for_each]; [intros armed; reflexivity|].
  pose proof (copy_step_run p src dest s) as R.
  destruct (copy_ok p src dest).
  - rewrite (bind_ok _ _ _ _ _ _ R). cbn [prepend trace].
    apply (arm_neutral_app [_; _]); [intros armed; reflexivity | exact IH].
  - rewrite (bind_raised _ _ _ _ _ _ R). intros armed. reflexivity.
Qed.

Lemma arm_neutral_distribute p dests srcs s :
  arm_neutral (trace (distribute p dests srcs s)).
Proof.
  unfold distribute. induction dests as [|dest dests IH]; cbn [for_each];
    [intros armed; reflexivity|].
  pose proof (arm_neutral_copy_loop p dest srcs s) as A.
  destruct (copy_loop_run p dest srcs s) as (D & _ & _).
  destruct (for_each srcs _ s) as [t s1 [[]|e]] eqn:R; cbn [trace final] in *; subst s1.
  - rewrite (bind_ok _ _ _ _ _ _ R). cbn [prepend trace].
    apply arm_neutral_app; assumption.
  - rewrite (bind_raised _ _ _ _ _ _ R). exact A.
Qed.

Lemma arm_neutral_check_folders folders_list :
  forall folders_checked s,
    arm_neutral (trace (check_folders folders_list folders_checked s)).
Proof.
  induction folders_list as [|folder rest IH]; intros folders_checked s.
  - intros armed. reflexivity.
  - rewrite check_folders_cons. cbn [prepend trace].
    apply arm_neutral_app; [|apply IH].
    destruct (negb (existsb (String.eqb folder) folders_checked)),
             (existsb (String.eqb folder) (folders s)); intros armed; reflexivity.
Qed.

Lemma arming_poll_events cfg p :
  arming [CAMERA_BUTTON_PIN cfg; EXIT_BUTTON_PIN cfg] (poll_events cfg p)
  = Some [CAMERA_BUTTON_PIN cfg; EXIT_BUTTON_PIN cfg].
Proof.
  unfold poll_events, check_events.
  destruct (cam_event p), (exit_event p); cbn [app arming existsb];
    rewrite !Z.eqb_refl, ?orb_true_r; reflexivity.
Qed.

Lemma arming_session_events cfg world l p n :
  CAMERA_BUTTON_PIN cfg <> EXIT_BUTTON_PIN cfg ->
  arming [CAMERA_BUTTON_PIN cfg; EXIT_BUTTON_PIN cfg] (session_events cfg world l p n)
  = Some [].
Proof.
  intros N. apply Z.eqb_neq in N. rewrite Z.eqb_sym in N.
  unfold session_events, session_head. rewrite <- !app_assoc.
  cbn [app arming existsb]. rewrite Z.eqb_refl. cbn [orb filter].
  rewrite Z.eqb_refl, N. cbn [negb arming existsb]. rewrite Z.eqb_refl.
  cbn [orb filter]. rewrite Z.eqb_refl. cbn [negb].
  apply arm_neutral_app; [apply arm_neutral_overlay_events|].
  apply arm_neutral_app; [apply arm_neutral_remove_events|].
  apply arm_neutral_app; [apply arm_neutral_cue_events|].
  apply arm_neutral_app; [apply arm_neutral_countdown|].
  apply (arm_neutral_app [_; _; _; _; _]); [intros a; reflexivity|].
  apply (arm_neutral_app [_; _; _; _]); [intros a; reflexivity|].
  apply arm_neutral_app; [apply arm_neutral_cue_events | intros a; reflexivity].
Qed.

Lemma arming_main_loop cfg world polls :
  CAMERA_BUTTON_PIN cfg <> EXIT_BUTTON_PIN cfg ->
  forall l s,
    arming [CAMERA_BUTTON_PIN cfg; EXIT_BUTTON_PIN cfg]
      (trace (main_loop cfg world polls l s))
    = Some match value (main_loop cfg world polls l s) with
           | Ok (Returned _) | Ok (Polling _) =>
               [CAMERA_BUTTON_PIN cfg; EXIT_BUTTON_PIN cfg]
           | Ok (Broke _) | Raised _ => []
           end.
Proof.
  intros N. induction polls as [|p rest IH]; intros l s; [reflexivity|].
  rewrite main_loop_step.
  destruct (negb (is_none (confirmed (exit_event p) (exit_input p)))).
  { cbn [trace value]. apply arming_poll_events. }
  destruct (session_starts cfg p).
  - pose proof (arm_neutral_distribute p (COPY_IMAGES_TO cfg)
                  [get_base_filename_for_images cfg p] (session_state cfg s)) as ND.
    unfold session_distribution.
    destruct (distribute p (COPY_IMAGES_TO cfg) _ (session_state cfg s))
      as [td sd [[]|e]]; cbn [trace value] in *.
    + unfold session_tail. destruct (TESTMODE_AUTOPRESS_BUTTON cfg).
      * cbn [trace value].
        rewrite arming_app, arming_poll_events.
        rewrite arming_app, (arming_session_events _ _ _ _ _ N).
        rewrite arming_app, ND. reflexivity.
      * cbn [prepend trace value]. rewrite <- IH.
        rewrite arming_app, arming_app, arming_poll_events.
        rewrite arming_app, (arming_session_events _ _ _ _ _ N).
        rewrite arming_app, ND. cbn [arming existsb app].
        apply Z.eqb_neq in N. rewrite Z.eqb_sym in N. rewrite N. reflexivity.
    + rewrite arming_app, arming_poll_events.
      rewrite arming_app, (arming_session_events _ _ _ _ _ N). apply ND.
  - cbn [prepend trace value]. rewrite <- IH.
    rewrite arming_app, arming_app, arming_poll_events. reflexivity.
Qed.

(** X16: when the two buttons are on different pins, a run of [main]
    never arms edge detection on a pin where it is armed, never disarms a
    pin where it is not, and asks a pin for its event only while detection
    is armed on it.  Detection is armed on both pins while the loop polls
    and when it returns on the exit button; it is disarmed for the length
    of each session, and stays disarmed when the loop ends in a session
    (test-mode break or failed copy). *)
Theorem run_arms_and_disarms cfg world polls s :
  CAMERA_BUTTON_PIN cfg <> EXIT_BUTTON_PIN cfg ->
  arming [] (trace (main cfg world polls s))
  = Some match value (main cfg world polls s) with
         | Ok (Returned _) | Ok (Polling _) =>
             [CAMERA_BUTTON_PIN cfg; EXIT_BUTTON_PIN cfg]
         | Ok (Broke _) | Raised _ => []
         end.
Proof.
  intros N. rewrite main_run. cbn [prepend trace value].
  rewrite <- (arming_main_loop cfg world polls N).
  rewrite arming_app.
  replace (arming [] (prologue_events cfg world s))
    with (Some [CAMERA_BUTTON_PIN cfg; EXIT_BUTTON_PIN cfg]); [reflexivity|].
  unfold prologue_events. rewrite arming_app. cbn [arming].
  unfold health_test_required_folders.
  rewrite arming_app, (arm_neutral_check_folders _ [] s).
  cbn [app arming]. rewrite arming_app, arm_neutral_overlay_events.
  cbn [arming existsb app].
  apply Z.eqb_neq in N. rewrite Z.eqb_sym in N. rewrite N. reflexivity.
Qed.

Lemma run_arms_and_disarms_witness :
  arming [] (trace (main booth_cfg sample_world [press; idle; exit_press] start))
  = Some [21; 13].
Proof.
  apply (run_arms_and_disarms booth_cfg sample_world [press; idle; exit_press] start).
  discriminate.
Defined.

(** ** How a run ends *)



(** ** Removals *)

Lemma removals_poll_events cfg p : removals (poll_events cfg p) = [].
Proof.
  unfold poll_events, check_events. destruct (cam_event p), (exit_event p); reflexivity.
Qed.

Lemma main_loop_removals cfg world polls :
  forall l s o,
    overlay l = Renderer o -> (o < next_overlay s)%nat ->
    let r := main_loop cfg world polls l s in
    NoDup (removals (trace r))
    /\ (next_overlay s <= next_overlay (final r))%nat
    /\ (forall x, In x (removals (trace r)) ->
          (x = o \/ next_overlay s <= x)%nat /\ (x < next_overlay (final r))%nat).
Proof.
  induction polls as [|p rest IH]; intros l s o E Lt; cbv zeta.
  - cbn. split; [constructor|]. split; [lia | tauto].
  - rewrite main_loop_step.
    pose proof (removals_poll_events cfg p) as RP.
    destruct (negb (is_none (confirmed (exit_event p) (exit_input p)))).
    { cbn [trace final]. rewrite RP. split; [constructor|]. split; [lia|].
      intros x []. }
    destruct (session_starts cfg p).
    + pose proof (removals_session cfg world l p s) as RS. rewrite session_run in RS.
      rewrite E in RS. cbn [remove_events removals flat_map app] in RS.
      set (n := next_overlay s) in *. set (k := playback_id cfg n) in *.
      set (R := (if Qgtb (PREP_DELAY cfg) 0 then [n] else [])
                ++ o :: seq (S n) (length (range_down (COUNTDOWN cfg))) ++ [k; S k]) in *.
      assert (NoDup R /\ forall x, In x R -> (x = o \/ n <= x)%nat /\ (x <= S k)%nat)
        as [NR BR].
      { subst R k. unfold playback_id.
        split.
        - apply NoDup_app.
          + destruct (Qgtb (PREP_DELAY cfg) 0); constructor; [intros [] | constructor].
          + constructor.
            * rewrite in_app_iff, in_seq. cbn [In]. lia.
            * apply NoDup_app; [apply seq_NoDup | |].
              -- constructor; [cbn [In]; lia | constructor; [intros [] | constructor]].
              -- intros a. rewrite in_seq. cbn [In]. lia.
          + intros a K. cbn [In]. rewrite in_app_iff, in_seq. cbn [In].
            destruct (Qgtb (PREP_DELAY cfg) 0); cbn [In] in K; lia.
        - intros x. rewrite in_app_iff. cbn [In]. rewrite in_app_iff, in_seq. cbn [In].
          destruct (Qgtb (PREP_DELAY cfg) 0); cbn [In]; lia. }
      assert (next_overlay (session_state cfg s) = S (S (S k))) as NS
          by (subst k n; unfold session_state, playback_id, bump; cbn [next_overlay]; lia).
      assert (n < k)%nat as NK by (subst k; unfold playback_id; lia).
      unfold session_distribution.
      destruct (distribute p (COPY_IMAGES_TO cfg) _ (session_state cfg s))
        as [td sd [[]|e]]; cbn [trace value] in *.
      * destruct (TESTMODE_AUTOPRESS_BUTTON cfg).
        -- cbn [trace final]. rewrite removals_app, RP. cbn [app]. rewrite RS, NS.
           split; [exact NR|]. split; [lia|].
           intros x K. specialize (BR x K). lia.
        -- destruct (IH (session_locals cfg l n) (session_state cfg s) (S (S k)))
             as (ND & MO & BD); [reflexivity | lia |]. cbv zeta in ND, MO, BD.
           cbn [prepend trace final].
           rewrite removals_app, (removals_app (poll_events cfg p)), RP. cbn [app].
           rewrite RS. rewrite NS in MO, BD.
           split; [|split; [lia|]].
           ++ apply NoDup_app; [exact NR | exact ND |].
              intros a K1 K2. specialize (BR a K1). specialize (BD a K2). lia.
           ++ intros x. rewrite in_app_iff. intros [K | K].
              ** specialize (BR x K). lia.
              ** specialize (BD x K). lia.
      * cbn [trace final]. rewrite removals_app, RP. cbn [app]. rewrite RS, NS.
        split; [exact NR|]. split; [lia|].
        intros x K. specialize (BR x K). lia.
    + destruct (IH l s o E Lt) as (ND & MO & BD). cbv zeta in ND, MO, BD.
      cbn [prepend trace final]. rewrite !removals_app, RP. cbn [app removals flat_map].
      split; [exact ND|]. split; [exact MO | exact BD].
Qed.

(** X18: in a run of [main] no overlay is passed to the camera's removal
    twice, and every overlay removed is one the camera created during the
    run. *)
Theorem no_overlay_removed_twice cfg world polls s :
  let r := main cfg world polls s in
  NoDup (removals (trace r))
  /\ forall x, In x (removals (trace r)) ->
               (next_overlay s <= x < next_overlay (final r))%nat.
Proof.
  cbv zeta. rewrite main_run. cbn [prepend trace final].
  destruct (check_folders_run ([SAVE_RAW_IMAGES_FOLDER cfg] ++ COPY_IMAGES_TO cfg) [] s)
    as (_ & N & _ & _).
  fold (health_test_required_folders cfg) in N.
  destruct (main_loop_removals cfg world polls (initial_locals s) (loop_entry_state cfg s)
              (next_overlay s)) as (ND & MO & BD).
  { reflexivity. }
  { unfold loop_entry_state, bump. cbn [next_overlay]. rewrite N. lia. }
  cbv zeta in ND, MO, BD.
  assert (removals (prologue_events cfg world s) = []) as RP.
  { unfold prologue_events. rewrite !removals_app.
    assert (forall fl fc s0, removals (trace (check_folders fl fc s0)) = []) as RC.
    { induction fl as [|f fl IHf]; intros fc s0; [reflexivity|].
      rewrite check_folders_cons. cbn [prepend trace]. rewrite removals_app, IHf.
      destruct (negb (existsb (String.eqb f) fc)), (existsb (String.eqb f) (folders s0));
        reflexivity. }
    unfold health_test_required_folders. rewrite RC. reflexivity. }
  rewrite removals_app, RP. cbn [app].
  split; [exact ND|]. intros x K. destruct (BD x K) as [A B].
  assert (next_overlay (loop_entry_state cfg s) = S (next_overlay s)) as NL
      by (unfold loop_entry_state, bump; cbn [next_overlay]; rewrite N; reflexivity).
  lia.
Qed.
